(** * lotto_mapper: block mapping, hit scoring and prize summary

    A shallow embedding of [lotto_mapper.py].  The script is a straight-line
    Streamlit page: it reads a covering design, the player's base numbers and
    the drawn numbers, maps the design's 1-based block positions onto the base
    numbers, scores every mapped block against the draw and prints a prize
    summary.

    Python integers are unbounded and are modelled by [Z]; a [str] is a list of
    characters (code points below 256); a [dict] keyed by integers is a
    [gmap Z Z]; a [set] of integers is a [gset Z].  An early [st.stop()] or an
    uncaught exception ends the script run and is modelled by the left
    injection of a sum. *)

From Stdlib Require Import ZArith String Ascii List Lia.
From stdpp Require Import base option list gmap sets fin_maps sorting.

Local Open Scope Z_scope.

(** ** Python built-ins used by the script *)

Module Py.

Definition str := list ascii.

(** A string literal as a [str]. *)
Definition lit (s : string) : str := list_ascii_of_string s.

(** [len(x)] is a non-negative integer. *)
Definition len {A} (l : list A) : Z := Z.of_nat (length l).

(** [l[j]]: a non-negative index counts from the front, a negative one
    from the back; outside [-len(l) .. len(l) - 1] Python raises
    [IndexError], here [None]. *)
Definition index {A} (l : list A) (j : Z) : option A :=
  if decide (0 ≤ j) then l !! Z.to_nat j
  else if decide (- len l ≤ j) then l !! Z.to_nat (len l + j)
  else None.

(** Truth value of an object that is [None] or a list. *)
Definition truthy {A} (o : option (list A)) : bool :=
  match o with
  | Some (_ :: _) => true
  | _ => false
  end.

Definition code (c : ascii) : Z := Z.of_nat (nat_of_ascii c).

(** [c.isspace()] on the first 256 code points. *)
Definition isspace (c : ascii) : bool :=
  let n := code c in
  ((9 <=? n) && (n <=? 13)) || ((28 <=? n) && (n <=? 32))
  || (n =? 133) || (n =? 160).

(** The decimal digits ([\d], and the digits [int] accepts) on the first
    256 code points are ['0'] to ['9']. *)
Definition isdigit (c : ascii) : bool :=
  let n := code c in (48 <=? n) && (n <=? 57).

Definition digit (c : ascii) : Z := code c - 48.

(** The characters [int] skips around a number: the interpreter maps the
    white space above code 126 to a blank and then skips blanks, tabs and
    line breaks, so the separators 28 to 31 are not skipped. *)
Definition isspace_int (c : ascii) : bool :=
  let n := code c in
  ((9 <=? n) && (n <=? 13)) || (n =? 32) || (n =? 133) || (n =? 160).

Fixpoint lstrip_by (sp : ascii → bool) (s : str) : str :=
  match s with
  | c :: s' => if sp c then lstrip_by sp s' else s
  | [] => []
  end.

Definition strip_by (sp : ascii → bool) (s : str) : str :=
  rev (lstrip_by sp (rev (lstrip_by sp s))).

(** [s.strip()] *)
Definition strip (s : str) : str := strip_by isspace s.

(** [s.split(sep)] for a one-character separator: always at least one
    piece, empty pieces kept. *)
Fixpoint split (sep : ascii) (s : str) : list str :=
  match s with
  | [] => [[]]
  | c :: s' =>
      if Ascii.eqb c sep then [] :: split sep s'
      else match split sep s' with
           | w :: ws => (c :: w) :: ws
           | [] => [[c]]
           end
  end.

(** The digit part of an integer literal: digits, with single underscores
    allowed between two digits.  [acc] is the value read so far, [prev]
    tells whether the previous character was a digit. *)
Fixpoint digitpart (acc : Z) (prev : bool) (s : str) : option Z :=
  match s with
  | [] => if prev then Some acc else None
  | c :: s' =>
      if isdigit c then digitpart (acc * 10 + digit c) true s'
      else if Ascii.eqb c "_"%char && prev then
        match s' with
        | d :: _ => if isdigit d then digitpart acc false s' else None
        | [] => None
        end
      else None
  end.

(** The interpreter's limit on the number of digits in a conversion between
    [int] and [str] ([sys.int_info.default_max_str_digits]). *)
Definition max_str_digits : Z := 4300.

Definition count_digits (s : str) : Z := len (List.filter isdigit s).

(** [int(s)] in base 10: surrounding white space is ignored, one optional
    sign, then the digit part.  [ValueError] is [None]; it is also raised
    when the text holds more than [max_str_digits] digits. *)
Definition int (s : str) : option Z :=
  if decide (max_str_digits < count_digits s) then None
  else
    match strip_by isspace_int s with
    | c :: s' =>
        if Ascii.eqb c "-"%char then Z.opp <$> digitpart 0 false s'
        else if Ascii.eqb c "+"%char then digitpart 0 false s'
        else digitpart 0 false (c :: s')
    | [] => None
    end.

(** [sorted(s)] for a set of integers. *)
Definition sorted (s : gset Z) : list Z := merge_sort Z.le (elements s).

(** [set(l)] *)
Definition set (l : list Z) : gset Z := list_to_set l.

(** [d.get(k, dflt)] *)
Definition get (d : gmap Z Z) (k dflt : Z) : Z := default dflt (d !! k).

(** [sum(xs)]: starts from 0 and adds from the left. *)
Definition sum (xs : list Z) : Z := foldl Z.add 0 xs.

(** [enumerate(l, start)] *)
Fixpoint enumerate {A} (start : Z) (l : list A) : list (Z * A) :=
  match l with
  | [] => []
  | x :: l' => (start, x) :: enumerate (start + 1) l'
  end.

(** [sorted(l)] for a list of integers. *)
Definition sorted_list (l : list Z) : list Z := merge_sort Z.le l.

(** The character of a decimal digit [0 <= d <= 9]. *)
Definition chr_digit (d : Z) : ascii := ascii_of_nat (Z.to_nat (48 + d)).

(** The decimal digits of [n >= 0], most significant first, in front of
    [acc].  A number below [2 ^ fuel] has at most [fuel] digits. *)
Fixpoint digits_aux (fuel : nat) (n : Z) (acc : str) : str :=
  match fuel with
  | O => acc
  | S fuel' =>
      let acc' := chr_digit (n mod 10) :: acc in
      if n <? 10 then acc' else digits_aux fuel' (n / 10) acc'
  end.

Definition digits (n : Z) : str :=
  digits_aux (S (Z.to_nat (Z.log2 n))) n [].

(** The decimal numeral of an integer. *)
Definition decimal (n : Z) : str :=
  if n <? 0 then "-"%char :: digits (- n) else digits n.

(** [str(n)] for an integer: its decimal numeral; [ValueError], here [None],
    when the number has more than [max_str_digits] digits. *)
Definition str_int (n : Z) : option str :=
  if decide (max_str_digits < len (digits (Z.abs n))) then None
  else Some (decimal n).

(** [sep.join(l)] *)
Fixpoint join (sep : str) (l : list str) : str :=
  match l with
  | [] => []
  | x :: l' =>
      match l' with
      | [] => x
      | _ :: _ => x ++ sep ++ join sep l'
      end
  end.

End Py.

(** ** Helper functions of the script *)

Inductive exn :=
  | ValueError.

(** [re.match(r"(\d+)", description)]: the match is anchored at the start and
    [\d+] is greedy, so group 1 is the longest run of digits the string begins
    with; there is no match when that run is empty. *)
Fixpoint digit_run (s : Py.str) : Py.str :=
  match s with
  | c :: s' => if Py.isdigit c then c :: digit_run s' else []
  | [] => []
  end.

Definition re_match_digits (s : Py.str) : option Py.str :=
  match digit_run s with
  | [] => None
  | g => Some g
  end.

Definition get_v_from_description (description : Py.str) : exn + Z :=
  match re_match_digits description with
  | Some g =>
      match Py.int g with
      | Some n => inr n
      | None => inl ValueError
      end
  | None => inl ValueError
  end.

(** [[user_numbers[i - 1] for i in block]]; an [IndexError] anywhere in the
    comprehension makes the function return [None]. *)
Definition map_user_numbers (user_numbers block : list Z) : option (list Z) :=
  mapM (λ i, Py.index user_numbers (i - 1)) block.

(** ** The block loop (lines 114 to 124) *)

(** [all(1 <= i <= v for i in blk)] *)
Definition all_in_range (v : Z) (blk : list Z) : bool :=
  forallb (λ i, (1 <=? i) && (i <=? v)) blk.

Record classified := Classified {
  mapped_blocks : list (list Z);
  invalid_blocks : list (list Z)
}.

Definition classify_step (user_numbers : list Z) (v : Z)
    (st : classified) (blk : list Z) : classified :=
  if all_in_range v blk then
    let mapped := map_user_numbers user_numbers blk in
    if Py.truthy mapped then
      Classified (mapped_blocks st ++ [default [] mapped]) (invalid_blocks st)
    else st
  else Classified (mapped_blocks st) (invalid_blocks st ++ [blk]).

Definition classify (user_numbers : list Z) (v : Z) (blocks : list (list Z))
    : classified :=
  foldl (classify_step user_numbers v) (Classified [] []) blocks.

(** What the loop appends to [mapped_blocks] for one block, if anything. *)
Definition mapped_of (user_numbers : list Z) (v : Z) (blk : list Z)
    : option (list Z) :=
  if all_in_range v blk then
    match map_user_numbers user_numbers blk with
    | Some (x :: m) => Some (x :: m)
    | _ => None
    end
  else None.

(** ** The match loop (lines 139 to 147) *)

(** [sorted(set(block) & set(draw_numbers))] *)
Definition hits_of (block draw_numbers : list Z) : list Z :=
  Py.sorted (Py.set block ∩ Py.set draw_numbers).

Record scored := Scored {
  hit_blocks : list (Z * list Z * list Z);
  match_counter : gmap Z Z
}.

Definition score_step (min_hits : Z) (draw_numbers : list Z)
    (st : scored) (ib : Z * list Z) : scored :=
  let hits := hits_of ib.2 draw_numbers in
  let count := Py.len hits in
  Scored
    (if decide (min_hits ≤ count)
     then hit_blocks st ++ [(ib.1, ib.2, hits)] else hit_blocks st)
    (<[count := Py.get (match_counter st) count 0 + 1]> (match_counter st)).

Definition score (min_hits : Z) (draw_numbers : list Z)
    (mapped : list (list Z)) : scored :=
  foldl (score_step min_hits draw_numbers) (Scored [] ∅)
        (Py.enumerate 1 mapped).

(** ** The prize summary (lines 157 to 173) *)

(** The [prize_table] dict, in insertion order. *)
Definition prize_table : list (Z * Z) := [(5, 24000); (4, 800); (3, 20)].

Definition ticket_price : Z := 20.

Record summary := Summary {
  six_hit_count : Z;
  total_fixed : Z;
  total_jackpot : Z;
  grand_total : Z;
  total_blocks : Z;
  total_cost : Z;
  net_profit : Z
}.

(** Lines 165 to 173 as a function of the histogram, the jackpot amount and
    the number of blocks.  In the comprehension [k] runs over the keys of
    [prize_table] and [prize_table[k]] is the prize stored with [k]. *)
Definition prize_calc (match_counter : gmap Z Z)
    (jackpot_amount total_blocks : Z) : summary :=
  let six_hit_count := Py.get match_counter 6 0 in
  let total_fixed :=
    Py.sum (map (λ kp : Z * Z, Py.get match_counter kp.1 0 * kp.2)
                prize_table) in
  let total_jackpot := six_hit_count * jackpot_amount in
  let grand_total := total_fixed + total_jackpot in
  let total_cost := total_blocks * ticket_price in
  let net_profit := grand_total - total_cost in
  Summary six_hit_count total_fixed total_jackpot grand_total
          total_blocks total_cost net_profit.

(** The script takes [total_blocks = len(mapped_blocks)] (line 171). *)
Definition prize_summary (match_counter : gmap Z Z) (jackpot_amount : Z)
    (mapped : list (list Z)) : summary :=
  prize_calc match_counter jackpot_amount (Py.len mapped).

(** [sum(d.values())] *)
Definition sum_values (d : gmap Z Z) : Z :=
  map_fold (λ _ c acc, c + acc) 0 d.

(** ** Reading the two text inputs (lines 81 to 89 and 104 to 111) *)

Definition nonempty (s : Py.str) : bool :=
  match s with
  | [] => false
  | _ :: _ => true
  end.

(** [[int(x) for x in text.strip().split(",") if x.strip()]]; [None] when
    some [int(x)] raises. *)
Definition parse_numbers (text : Py.str) : option (list Z) :=
  mapM Py.int
    (List.filter (λ x, nonempty (Py.strip x))
                 (Py.split ","%char (Py.strip text))).

(** Why a script run ended early: the message shown before [st.stop()], or
    the exception that was not caught. *)
Inductive stop :=
  | NoDesigns
  | Uncaught (e : exn)
  | TooFewNumbers
  | InvalidInputFormat
  | NotSixUnique
  | InvalidDrawnFormat.

#[local] Instance run_ret : MRet (sum stop) := λ A x, inr x.
#[local] Instance run_bind : MBind (sum stop) := λ A B f m,
  match m with
  | inl e => inl e
  | inr x => f x
  end.

Definition read_user_numbers (user_input : Py.str) : stop + list Z :=
  match parse_numbers user_input with
  | Some user_numbers =>
      if decide (Py.len user_numbers < 6) then inl TooFewNumbers
      else inr user_numbers
  | None => inl InvalidInputFormat
  end.

Definition read_draw_numbers (draw_input : Py.str) : stop + list Z :=
  match parse_numbers draw_input with
  | Some draw_numbers =>
      if decide (Py.len draw_numbers ≠ 6
                 ∨ Z.of_nat (size (Py.set draw_numbers)) ≠ 6)
      then inl NotSixUnique
      else inr draw_numbers
  | None => inl InvalidDrawnFormat
  end.

(** ** The page as a whole *)

(** What one run of the script reads: what the design store returns and the
    values of the widgets.  The two generate buttons are not part of it: [run]
    below is a run in which neither was clicked ([st.button] returns
    [False]); a click is modelled by [generate]. *)
Record page := Page {
  designs : list Py.str;
  selected : Py.str;
  blocks : list (list Z);
  user_input : Py.str;
  draw_input : Py.str;
  min_hits : Z;
  jackpot_amount : Z
}.

Record report := Report {
  v_design : Z;
  user_numbers : list Z;
  draw_numbers : list Z;
  block_result : classified;
  match_result : scored;
  prizes : summary
}.

Definition lift_exn {A} (r : exn + A) : stop + A :=
  match r with
  | inl e => inl (Uncaught e)
  | inr x => inr x
  end.

Definition nonempty_designs (p : page) : bool :=
  match designs p with
  | [] => false
  | _ :: _ => true
  end.

Definition run (p : page) : stop + report :=
  if nonempty_designs p then
    vd ← lift_exn (get_v_from_description (selected p));
    us ← read_user_numbers (user_input p);
    ds ← read_draw_numbers (draw_input p);
    let v := Py.len us in
    let c := classify us v (blocks p) in
    let s := score (min_hits p) ds (mapped_blocks c) in
    mret (Report vd us ds c s
            (prize_summary (match_counter s) (jackpot_amount p)
                           (mapped_blocks c)))
  else inl NoDesigns.

(** ** The value of a digit string, in positional notation *)

(** The integer a run of decimal digits denotes, most significant digit
    first: each digit weighs the power of ten of its place.  This is the
    reading of "the integer value of the leading run of decimal digits"; the
    code's [int] is compared with it. *)
Fixpoint decimal_value (ds : Py.str) : Z :=
  match ds with
  | [] => 0
  | c :: r => Py.digit c * 10 ^ Z.of_nat (length r) + decimal_value r
  end.

(** The next character, if any, is not a digit. *)
Definition no_leading_digit (s : Py.str) : Prop :=
  ∀ c, head s = Some c → Py.isdigit c = false.

(** ** The generated numbers (lines 68 to 71 and 98 to 101) *)

(** [n] has at most [Py.max_str_digits] decimal digits. *)
Definition printable (n : Z) : Prop := Z.abs n < 10 ^ Py.max_str_digits.

(** [random.sample(range(1, 43), k)]: [ValueError] when [k] is negative or
    exceeds the 42 numbers of the range; otherwise [k] pairwise distinct
    numbers of the range, in an order the generator chooses.  The numbers
    chosen are the parameter [choice]; [is_sample] says what the generator
    guarantees about them. *)
Definition is_sample (k : Z) (choice : list Z) : Prop :=
  Py.len choice = k ∧ NoDup choice ∧ Forall (λ n, 1 ≤ n ≤ 42) choice.

Definition random_sample (k : Z) (choice : list Z) : exn + list Z :=
  if decide (k < 0 ∨ 42 < k) then inl ValueError else inr choice.

(** [', '.join(str(n) for n in numbers)]; [None] when some [str(n)]
    raises. *)
Definition format_numbers (numbers : list Z) : option Py.str :=
  Py.join (Py.lit ", ") <$> mapM Py.str_int numbers.

(** What a click on a generate button stores, or the exception it raises:
    [', '.join(str(n) for n in sorted(random.sample(range(1, 43), k)))],
    with [k = v_design] for the base numbers and [k = 6] for the draw. *)
Definition generate (k : Z) (choice : list Z) : exn + Py.str :=
  match random_sample k choice with
  | inl e => inl e
  | inr sample =>
      match format_numbers (Py.sorted_list sample) with
      | Some text => inr text
      | None => inl ValueError
      end
  end.

(** ** The itemised prize lines and the toast (lines 178 to 206) *)

(** One line per prize tier with a non-zero count, tiers in decreasing
    order: the count, the tier, its prize and the amount won.  As in
    [prize_calc], a pair of [prize_table] stands for a key and the prize
    stored with it. *)
Definition key_ge (a b : Z * Z) : Prop := b.1 ≤ a.1.

#[local] Instance key_ge_dec (a b : Z * Z) : Decision (key_ge a b) :=
  Z_le_dec b.1 a.1.

Definition tier_lines (match_counter : gmap Z Z) : list (Z * Z * Z * Z) :=
  omap (λ kp : Z * Z,
          let count := Py.get match_counter kp.1 0 in
          if decide (count = 0) then None
          else Some (count, kp.1, kp.2, count * kp.2))
       (merge_sort key_ge prize_table).

Inductive toast :=
  | JackpotToast
  | WinToast
  | NoHitsToast.

Definition toast_of (s : summary) : toast :=
  if decide (0 < six_hit_count s) then JackpotToast
  else if decide (0 < grand_total s) then WinToast
  else NoHitsToast.

(** ** Per-block quantities used to state the properties *)

(** The hit count the match loop computes for one block. *)
Definition hit_count (draw_numbers block : list Z) : Z :=
  Py.len (hits_of block draw_numbers).

(** The prize [prize_table] stores for a hit count, 0 when it has none. *)
Fixpoint tier_prize_in (table : list (Z * Z)) (k : Z) : Z :=
  match table with
  | [] => 0
  | kp :: table' => if decide (kp.1 = k) then kp.2 else tier_prize_in table' k
  end.

(** What one block with [k] hits wins: the jackpot for 6, else its tier. *)
Definition payout (jackpot_amount k : Z) : Z :=
  if decide (k = 6) then jackpot_amount else tier_prize_in prize_table k.

(** A character of a blank input: white space or a comma. *)
Definition blank_char (c : ascii) : bool :=
  Py.isspace c || Ascii.eqb c ","%char.

(** The last character of a text exists and is not white space. *)
Definition ends_well (sp : ascii → bool) (s : Py.str) : Prop :=
  ∃ s' d, s = s' ++ [d] ∧ sp d = false.

(** ** Example pages *)

(** The script does not restrict the jackpot amount: with a negative amount
    and a block matching all six drawn numbers the run completes and
    [total_jackpot] and [grand_total] are negative. *)
Definition negative_jackpot_page : page :=
  Page [Py.lit "06-06-06"] (Py.lit "06-06-06") [[1; 2; 3; 4; 5; 6]]
       (Py.lit "1,2,3,4,5,6") (Py.lit "1,2,3,4,5,6") 1 (-1000000).

(** A description that starts with 4301 digits. *)
Definition long_digit_description : Py.str :=
  repeat "1"%char 4301 ++ Py.lit "N-3S".

(** A page with six distinct drawn numbers. *)
Definition valid_draw_page : page :=
  Page [Py.lit "08-06-03"] (Py.lit "08-06-03")
       [[1; 2; 3; 4; 5; 6]; [1; 2; 3; 4; 7; 8]; [9; 1; 2; 3; 4; 5]]
       (Py.lit "1, 2,3,4,5,6,7,8") (Py.lit " 7,5 ,3,  2,1,4,") 1 30000000.

(** A page whose drawn input repeats a number. *)
Definition duplicate_draw_page : page :=
  Page [Py.lit "06-06-06"] (Py.lit "06-06-06") [[1; 2; 3; 4; 5; 6]]
       (Py.lit "1,2,3,4,5,6") (Py.lit "1,1,2,3,4,5") 1 30000000.

(** * Properties *)

(** ** Indexing and the mapping function *)

Lemma index_nonneg {A} (l : list A) (j : Z) :
  0 ≤ j → Py.index l j = l !! Z.to_nat j.
Proof. intros Hj. unfold Py.index. by rewrite decide_True. Qed.

Lemma index_neg {A} (l : list A) (j : Z) :
  - Py.len l ≤ j < 0 → Py.index l j = l !! Z.to_nat (Py.len l + j).
Proof.
  intros [Hlo Hhi]. unfold Py.index.
  rewrite decide_False by lia. by rewrite decide_True.
Qed.

Lemma index_is_Some {A} (l : list A) (j : Z) :
  is_Some (Py.index l j) ↔ - Py.len l ≤ j < Py.len l.
Proof.
  unfold Py.index, Py.len. repeat case_decide.
  - rewrite lookup_lt_is_Some. lia.
  - rewrite lookup_lt_is_Some. lia.
  - split; [intros [x Hx]; discriminate | lia].
Qed.

Lemma index_None {A} (l : list A) (j : Z) :
  Py.index l j = None ↔ Py.len l ≤ j ∨ j < - Py.len l.
Proof.
  rewrite eq_None_not_Some, index_is_Some. lia.
Qed.

Lemma all_in_range_Forall (v : Z) (blk : list Z) :
  all_in_range v blk = true ↔ Forall (λ p, 1 ≤ p ≤ v) blk.
Proof.
  unfold all_in_range. rewrite forallb_forall, Forall_forall.
  split; intros H p Hp.
  - apply list_elem_of_In, H in Hp. lia.
  - apply list_elem_of_In, H in Hp. lia.
Qed.

Lemma all_in_range_Exists (v : Z) (blk : list Z) :
  all_in_range v blk = false ↔ Exists (λ p, p < 1 ∨ v < p) blk.
Proof.
  unfold all_in_range. induction blk as [|p blk IH]; simpl.
  - split; [discriminate | intros H; inversion H].
  - rewrite Exists_cons, <- IH, andb_false_iff, andb_false_iff.
    rewrite !Z.leb_gt. reflexivity.
Qed.

Lemma map_user_numbers_in_range (user_numbers block : list Z) :
  Forall (λ p, 1 ≤ p ≤ Py.len user_numbers) block →
  ∃ mapped,
    map_user_numbers user_numbers block = Some mapped
    ∧ Forall2 (λ p x, user_numbers !! Z.to_nat (p - 1) = Some x) block mapped.
Proof.
  intros Hall. unfold map_user_numbers.
  induction Hall as [|p block Hp Hall (mapped & Hm & Hf)].
  - exists []. split; [reflexivity | constructor].
  - destruct (lookup_lt_is_Some_2 user_numbers (Z.to_nat (p - 1))) as [x Hx].
    { unfold Py.len in Hp. lia. }
    exists (x :: mapped). split.
    + apply mapM_Some. constructor.
      * rewrite index_nonneg by lia. exact Hx.
      * by apply mapM_Some.
    + by constructor.
Qed.

Lemma map_user_numbers_None (user_numbers block : list Z) :
  map_user_numbers user_numbers block = None
  ↔ Exists (λ p, Py.len user_numbers < p ∨ p ≤ - Py.len user_numbers) block.
Proof.
  unfold map_user_numbers. rewrite mapM_None.
  split; intros H; eapply Exists_impl; try exact H;
    intros p; simpl; rewrite index_None; lia.
Qed.

(** ** The block loop, in closed form *)

Lemma classify_foldl (user_numbers : list Z) (v : Z)
    (blocks : list (list Z)) (st : classified) :
  foldl (classify_step user_numbers v) st blocks
  = Classified
      (mapped_blocks st ++ omap (mapped_of user_numbers v) blocks)
      (invalid_blocks st
         ++ List.filter (λ blk, negb (all_in_range v blk)) blocks).
Proof.
  revert st. induction blocks as [|blk blocks IH]; intros [ms inv]; simpl.
  - by rewrite !app_nil_r.
  - rewrite IH. unfold classify_step, mapped_of.
    destruct (all_in_range v blk); simpl.
    + destruct (map_user_numbers user_numbers blk) as [[|x m]|]; simpl;
        try reflexivity.
      by rewrite <- app_assoc.
    + by rewrite <- app_assoc.
Qed.

Lemma classify_closed (user_numbers : list Z) (v : Z)
    (blocks : list (list Z)) :
  classify user_numbers v blocks
  = Classified
      (omap (mapped_of user_numbers v) blocks)
      (List.filter (λ blk, negb (all_in_range v blk)) blocks).
Proof. unfold classify. by rewrite classify_foldl. Qed.

Lemma mapped_of_out_of_range (user_numbers : list Z) (v : Z) (blk : list Z) :
  all_in_range v blk = false → mapped_of user_numbers v blk = None.
Proof. intros H. unfold mapped_of. by rewrite H. Qed.

Lemma mapped_of_in_range (user_numbers blk : list Z) :
  blk ≠ [] →
  all_in_range (Py.len user_numbers) blk = true →
  ∃ mapped,
    map_user_numbers user_numbers blk = Some mapped
    ∧ mapped_of user_numbers (Py.len user_numbers) blk = Some mapped.
Proof.
  intros Hne Hin. unfold mapped_of. rewrite Hin.
  apply all_in_range_Forall, map_user_numbers_in_range in Hin
    as (mapped & Hm & Hf).
  exists mapped. split; [exact Hm|]. rewrite Hm.
  destruct Hf; [done | reflexivity].
Qed.

(** ** Claims about the mapping and the block loop *)

(** Claim C3.  Mapping bounds and order preservation.  With [v] the number of base
    numbers: for a block whose positions all lie in [1, v],
    [map_user_numbers] returns a list [mapped] of the length of the block
    whose k-th entry is the base number at the k-th position of the block
    (position [p] reads index [p - 1]), in block order, nothing sorted or
    removed.  A block holding a position below 1 or above [v], wherever it
    sits in the store, adds nothing to [mapped_blocks], is appended whole to
    [invalid_blocks] at its place, and the loop goes on with the blocks after
    it. *)
Theorem mapping_bounds_and_order (user_numbers : list Z) :
  let v := Py.len user_numbers in
  (∀ block : list Z,
     Forall (λ p, 1 ≤ p ≤ v) block →
     ∃ mapped,
       map_user_numbers user_numbers block = Some mapped
       ∧ length mapped = length block
       ∧ Forall2 (λ p x, user_numbers !! Z.to_nat (p - 1) = Some x)
                 block mapped)
  ∧ (∀ (pre : list (list Z)) (blk : list Z) (post : list (list Z)),
       Exists (λ p, p < 1 ∨ v < p) blk →
       let c := classify user_numbers v (pre ++ blk :: post) in
       mapped_blocks c = mapped_blocks (classify user_numbers v (pre ++ post))
       ∧ invalid_blocks c
         = invalid_blocks (classify user_numbers v pre)
             ++ blk :: invalid_blocks (classify user_numbers v post)).
Proof.
  intros v. split.
  - intros block Hall.
    destruct (map_user_numbers_in_range user_numbers block Hall)
      as (mapped & Hm & Hf).
    exists mapped. split_and!; [exact Hm | | exact Hf].
    symmetry. by eapply Forall2_length.
  - intros pre blk post Hex c. subst c.
    apply all_in_range_Exists in Hex.
    rewrite !classify_closed. simpl.
    rewrite !omap_app, !List.filter_app. simpl.
    rewrite (mapped_of_out_of_range _ _ _ Hex), Hex. simpl.
    split; reflexivity.
Qed.

Lemma mapping_bounds_and_order_witness :
  (∃ mapped,
     map_user_numbers [10; 20; 30; 40; 50; 60; 70] [7; 1; 1; 3] = Some mapped
     ∧ length mapped = 4%nat
     ∧ Forall2 (λ p x, [10; 20; 30; 40; 50; 60; 70] !! Z.to_nat (p - 1)
                       = Some x) [7; 1; 1; 3] mapped)
  ∧ (mapped_blocks
       (classify [10; 20; 30; 40; 50; 60; 70] 7
          ([[1; 2; 3; 4; 5; 6]] ++ [8; 1; 2; 3; 4; 5] :: [[2; 3; 4; 5; 6; 7]]))
     = mapped_blocks
         (classify [10; 20; 30; 40; 50; 60; 70] 7
            ([[1; 2; 3; 4; 5; 6]] ++ [[2; 3; 4; 5; 6; 7]]))
     ∧ invalid_blocks
         (classify [10; 20; 30; 40; 50; 60; 70] 7
            ([[1; 2; 3; 4; 5; 6]] ++ [8; 1; 2; 3; 4; 5] :: [[2; 3; 4; 5; 6; 7]]))
       = invalid_blocks (classify [10; 20; 30; 40; 50; 60; 70] 7
                           [[1; 2; 3; 4; 5; 6]])
           ++ [8; 1; 2; 3; 4; 5]
              :: invalid_blocks (classify [10; 20; 30; 40; 50; 60; 70] 7
                                   [[2; 3; 4; 5; 6; 7]])).
Proof.
  split.
  - apply (proj1 (mapping_bounds_and_order [10; 20; 30; 40; 50; 60; 70])).
    repeat constructor; vm_compute; discriminate.
  - apply (proj2 (mapping_bounds_and_order [10; 20; 30; 40; 50; 60; 70])
             [[1; 2; 3; 4; 5; 6]] [8; 1; 2; 3; 4; 5] [[2; 3; 4; 5; 6; 7]]).
    constructor. right. vm_compute. reflexivity.
Defined.

(** Claim C9.  [map_user_numbers] on its own does not reject positions below 1.
    With [v] the number of base numbers: it returns [None] exactly when some
    position [p] has [p > v] or [p <= -v]; a position [p] with
    [1 - v <= p <= 0] is read from the end of the base list (index
    [v + p - 1], so position 0 reads the last base number); a block with a
    position below 1 is kept out of [mapped_blocks] by the range test of the
    loop alone, which files it under [invalid_blocks]. *)
Theorem map_user_numbers_negative_positions (user_numbers : list Z) :
  let v := Py.len user_numbers in
  (∀ block : list Z,
     map_user_numbers user_numbers block = None
     ↔ Exists (λ p, v < p ∨ p ≤ - v) block)
  ∧ (∀ (block mapped : list Z) (k : nat) (p : Z),
       map_user_numbers user_numbers block = Some mapped →
       block !! k = Some p →
       1 - v ≤ p ≤ 0 →
       is_Some (mapped !! k)
       ∧ mapped !! k = user_numbers !! Z.to_nat (v + p - 1))
  ∧ (0 < v →
       map_user_numbers user_numbers [0]
       = Some (option_list (user_numbers !! Z.to_nat (v - 1)))
       ∧ is_Some (user_numbers !! Z.to_nat (v - 1)))
  ∧ (∀ blk : list Z,
       Exists (λ p, p < 1) blk →
       classify user_numbers v [blk] = Classified [] [blk]).
Proof.
  intros v. split_and!.
  - intros block. apply map_user_numbers_None.
  - intros block mapped k p Hm Hk Hp.
    apply mapM_Some in Hm.
    destruct (Forall2_lookup_l _ _ _ _ _ Hm Hk) as (x & Hx & Hix).
    rewrite Hx. split; [eauto|].
    rewrite <- Hix, index_neg by (fold v; lia).
    f_equal. fold v. lia.
  - intros Hv.
    destruct (lookup_lt_is_Some_2 user_numbers (Z.to_nat (v - 1)))
      as [x Hx]; [unfold v, Py.len in *; lia|].
    split; [|eauto]. rewrite Hx. simpl.
    unfold map_user_numbers. simpl.
    rewrite index_neg by (fold v; lia).
    replace (Py.len user_numbers + (0 - 1)) with (v - 1) by (unfold v; lia).
    by rewrite Hx.
  - intros blk Hex. rewrite classify_closed. simpl.
    assert (all_in_range v blk = false) as Hout.
    { apply all_in_range_Exists. eapply Exists_impl; [exact Hex|].
      simpl. intros. lia. }
    by rewrite (mapped_of_out_of_range _ _ _ Hout), Hout.
Qed.

Lemma map_user_numbers_negative_positions_witness :
  (is_Some ([60; 10; 20; 30; 40; 50] !! 0%nat)
   ∧ [60; 10; 20; 30; 40; 50] !! 0%nat
     = [10; 20; 30; 40; 50; 60] !! Z.to_nat (6 + 0 - 1))
  ∧ (map_user_numbers [10; 20; 30; 40; 50; 60] [0] = Some [60]
     ∧ is_Some ([10; 20; 30; 40; 50; 60] !! Z.to_nat (6 - 1)))
  ∧ classify [10; 20; 30; 40; 50; 60] 6 [[0; 1; 2; 3; 4; 5]]
    = Classified [] [[0; 1; 2; 3; 4; 5]].
Proof.
  pose proof (map_user_numbers_negative_positions [10; 20; 30; 40; 50; 60])
    as (_ & Hread & Hzero & Hloop).
  split; [|split].
  - apply (Hread [0; 1; 2; 3; 4; 5] [60; 10; 20; 30; 40; 50] 0%nat 0);
      [reflexivity | reflexivity | vm_compute; split; discriminate].
  - exact (Hzero eq_refl).
  - apply Hloop. constructor. reflexivity.
Defined.

(** Claim C10.  The block loop partitions the store.  When no stored block is
    empty and there are at least 6 base numbers, every block goes to exactly
    one of the two lists: [invalid_blocks] is the sub-list of the blocks that
    fail the range test, [mapped_blocks] holds, in the same order, the
    mappings of the blocks that pass it, and the two lengths add up to the
    number of blocks. *)
Theorem classification_partition (user_numbers : list Z)
    (blocks : list (list Z)) :
  let v := Py.len user_numbers in
  6 ≤ v →
  Forall (λ blk, blk ≠ []) blocks →
  let c := classify user_numbers v blocks in
  (length (mapped_blocks c) + length (invalid_blocks c))%nat = length blocks
  ∧ invalid_blocks c = List.filter (λ blk, negb (all_in_range v blk)) blocks
  ∧ Forall2 (λ blk mapped, map_user_numbers user_numbers blk = Some mapped)
            (List.filter (all_in_range v) blocks) (mapped_blocks c).
Proof.
  intros v _ Hne c. subst c. rewrite classify_closed. simpl.
  split_and!; [|reflexivity|].
  - induction Hne as [|blk blocks Hblk Hne IH]; [reflexivity|]. simpl.
    destruct (all_in_range v blk) eqn:Hin; simpl.
    + destruct (mapped_of_in_range user_numbers blk Hblk Hin)
        as (mapped & _ & Hmo).
      fold v in Hmo. rewrite Hmo. simpl. f_equal. exact IH.
    + rewrite (mapped_of_out_of_range _ _ _ Hin). simpl.
      rewrite Nat.add_succ_r. f_equal. exact IH.
  - induction Hne as [|blk blocks Hblk Hne IH]; [constructor|]. simpl.
    destruct (all_in_range v blk) eqn:Hin; simpl.
    + destruct (mapped_of_in_range user_numbers blk Hblk Hin)
        as (mapped & Hm & Hmo).
      fold v in Hmo. rewrite Hmo. by constructor.
    + by rewrite (mapped_of_out_of_range _ _ _ Hin).
Qed.

Lemma classification_partition_witness :
  let c := classify [10; 20; 30; 40; 50; 60; 70] 7
             [[1; 2; 3; 4; 5; 6]; [8; 1; 2; 3; 4; 5]; [7; 6; 5; 4; 3; 2]] in
  (length (mapped_blocks c) + length (invalid_blocks c))%nat = 3%nat
  ∧ invalid_blocks c = [[8; 1; 2; 3; 4; 5]]
  ∧ Forall2 (λ blk mapped,
       map_user_numbers [10; 20; 30; 40; 50; 60; 70] blk = Some mapped)
      [[1; 2; 3; 4; 5; 6]; [7; 6; 5; 4; 3; 2]] (mapped_blocks c).
Proof.
  apply (classification_partition [10; 20; 30; 40; 50; 60; 70]
           [[1; 2; 3; 4; 5; 6]; [8; 1; 2; 3; 4; 5]; [7; 6; 5; 4; 3; 2]]).
  - vm_compute. discriminate.
  - repeat constructor; discriminate.
Defined.

(** ** Sorting a set, and the hit list *)

Lemma sorted_elem_of (s : gset Z) (x : Z) : x ∈ Py.sorted s ↔ x ∈ s.
Proof.
  unfold Py.sorted. rewrite merge_sort_Permutation. apply elem_of_elements.
Qed.

Lemma sorted_NoDup (s : gset Z) : NoDup (Py.sorted s).
Proof.
  unfold Py.sorted. rewrite merge_sort_Permutation. apply NoDup_elements.
Qed.

Lemma sorted_length (s : gset Z) : length (Py.sorted s) = size s.
Proof.
  unfold Py.sorted, size, set_size. simpl.
  by rewrite merge_sort_Permutation.
Qed.

Lemma StronglySorted_le_lt (l : list Z) :
  StronglySorted Z.le l → NoDup l → StronglySorted Z.lt l.
Proof.
  induction 1 as [|x l Hs IH Hall]; intros Hnd; constructor.
  - apply IH. by inversion Hnd.
  - apply NoDup_cons in Hnd as [Hx _].
    rewrite Forall_forall in Hall |- *. intros y Hy.
    specialize (Hall y Hy). assert (x ≠ y) by (intros ->; done). lia.
Qed.

Lemma sorted_increasing (s : gset Z) : StronglySorted Z.lt (Py.sorted s).
Proof.
  apply StronglySorted_le_lt; [|apply sorted_NoDup].
  unfold Py.sorted. apply StronglySorted_merge_sort; apply _.
Qed.

Lemma hits_of_elem_of (block draw_numbers : list Z) (x : Z) :
  x ∈ hits_of block draw_numbers ↔ x ∈ block ∧ x ∈ draw_numbers.
Proof.
  unfold hits_of, Py.set.
  rewrite sorted_elem_of, elem_of_intersection, !elem_of_list_to_set.
  reflexivity.
Qed.

Lemma hits_of_count_drawn (block draw_numbers : list Z) :
  NoDup draw_numbers →
  length (hits_of block draw_numbers)
  = length (filter (λ d, d ∈ block) draw_numbers).
Proof.
  intros Hnd. apply Permutation_length, NoDup_Permutation.
  - apply sorted_NoDup.
  - by apply NoDup_filter.
  - intros x. rewrite hits_of_elem_of, list_elem_of_filter. reflexivity.
Qed.

Lemma set_remove_dups (l : list Z) : Py.set (remove_dups l) = Py.set l.
Proof.
  unfold Py.set. apply set_eq. intros x.
  by rewrite !elem_of_list_to_set, elem_of_remove_dups.
Qed.

(** ** The match loop *)

Lemma score_step_counter (m1 m2 : Z) (draw_numbers : list Z)
    (st1 st2 : scored) (ib1 ib2 : Z * list Z) :
  match_counter st1 = match_counter st2 →
  ib1.2 = ib2.2 →
  match_counter (score_step m1 draw_numbers st1 ib1)
  = match_counter (score_step m2 draw_numbers st2 ib2).
Proof. intros Hc Hb. unfold score_step. simpl. by rewrite Hc, Hb. Qed.

Lemma score_foldl_counter (m1 m2 : Z) (draw_numbers : list Z)
    (l : list (Z * list Z)) (st1 st2 : scored) :
  match_counter st1 = match_counter st2 →
  match_counter (foldl (score_step m1 draw_numbers) st1 l)
  = match_counter (foldl (score_step m2 draw_numbers) st2 l).
Proof.
  revert st1 st2. induction l as [|ib l IH]; intros st1 st2 Hc; simpl.
  - exact Hc.
  - apply IH. by apply score_step_counter.
Qed.

Lemma score_counter_threshold (m1 m2 : Z) (draw_numbers : list Z)
    (mapped : list (list Z)) :
  match_counter (score m1 draw_numbers mapped)
  = match_counter (score m2 draw_numbers mapped).
Proof. unfold score. by apply score_foldl_counter. Qed.

Lemma sum_values_empty : sum_values ∅ = 0.
Proof. unfold sum_values. apply map_fold_empty. Qed.

Lemma sum_values_insert_fresh (d : gmap Z Z) (k c : Z) :
  d !! k = None → sum_values (<[k := c]> d) = c + sum_values d.
Proof.
  intros Hk. unfold sum_values.
  rewrite map_fold_insert_L; [reflexivity | | exact Hk].
  intros. lia.
Qed.

Lemma sum_values_insert (d : gmap Z Z) (k c : Z) :
  sum_values (<[k := c]> d) = sum_values d - Py.get d k 0 + c.
Proof.
  unfold Py.get. destruct (d !! k) as [x|] eqn:Hk; simpl.
  - rewrite <- (insert_delete_id d k x Hk) at 2.
    rewrite <- (insert_delete_eq d k c).
    rewrite !sum_values_insert_fresh by apply lookup_delete_eq. lia.
  - rewrite sum_values_insert_fresh by exact Hk. lia.
Qed.

Lemma score_foldl_sum (min_hits : Z) (draw_numbers : list Z)
    (l : list (Z * list Z)) (st : scored) :
  sum_values (match_counter (foldl (score_step min_hits draw_numbers) st l))
  = sum_values (match_counter st) + Py.len l.
Proof.
  revert st. induction l as [|ib l IH]; intros st; simpl.
  - unfold Py.len. simpl. lia.
  - rewrite IH. unfold score_step. simpl match_counter.
    rewrite sum_values_insert. unfold Py.len. simpl length. lia.
Qed.

Lemma enumerate_length {A} (start : Z) (l : list A) :
  length (Py.enumerate start l) = length l.
Proof.
  revert start. induction l as [|x l IH]; intros start; simpl;
    [reflexivity | by rewrite IH].
Qed.

(** Every count the loop stores is at least 1. *)
Lemma score_foldl_positive (min_hits : Z) (draw_numbers : list Z)
    (l : list (Z * list Z)) (st : scored) :
  map_Forall (λ _ c, 1 ≤ c) (match_counter st) →
  map_Forall (λ _ c, 1 ≤ c)
    (match_counter (foldl (score_step min_hits draw_numbers) st l)).
Proof.
  revert st. induction l as [|ib l IH]; intros st Hst; simpl.
  - exact Hst.
  - apply IH. unfold score_step. simpl.
    apply map_Forall_insert_2; [|exact Hst].
    unfold Py.get. destruct (match_counter st !! _) as [c|] eqn:Hc; simpl.
    + specialize (Hst _ _ Hc). simpl in Hst. lia.
    + lia.
Qed.

Lemma score_counter_nonneg (min_hits : Z) (draw_numbers : list Z)
    (mapped : list (list Z)) (k : Z) :
  0 ≤ Py.get (match_counter (score min_hits draw_numbers mapped)) k 0.
Proof.
  unfold Py.get.
  destruct (match_counter (score min_hits draw_numbers mapped) !! k)
    as [c|] eqn:Hc; simpl; [|lia].
  assert (1 ≤ c); [|lia].
  eapply (score_foldl_positive min_hits draw_numbers
            (Py.enumerate 1 mapped) (Scored [] ∅)); [|exact Hc].
  apply map_Forall_empty.
Qed.

Lemma score_foldl_hit_blocks (min_hits : Z) (draw_numbers : list Z)
    (l : list (Z * list Z)) (st : scored) :
  hit_blocks (foldl (score_step min_hits draw_numbers) st l)
  = hit_blocks st
      ++ filter (λ e : Z * list Z * list Z, min_hits ≤ Py.len e.2)
           (map (λ ib : Z * list Z, (ib.1, ib.2, hits_of ib.2 draw_numbers))
                l).
Proof.
  revert st. induction l as [|ib l IH]; intros st; simpl.
  - by rewrite app_nil_r.
  - rewrite IH. unfold score_step. simpl hit_blocks.
    rewrite filter_cons. simpl.
    destruct (decide (min_hits ≤ Py.len (hits_of ib.2 draw_numbers))).
    + by rewrite <- app_assoc.
    + reflexivity.
Qed.

(** ** Claims about scoring and prizes *)

(** Claim C1.  Threshold independence of prizing.  For one list of mapped
    blocks, one draw of 6 distinct numbers and one jackpot amount, two
    thresholds in [0, 6] give the same histogram and the same [total_fixed],
    [total_jackpot], [grand_total] and [net_profit]; the threshold decides
    only which entries of the full match list are kept in [hit_blocks]. *)
Theorem threshold_independence (mapped : list (list Z))
    (draw_numbers : list Z) (jackpot : Z) (m1 m2 : Z) :
  length draw_numbers = 6%nat →
  NoDup draw_numbers →
  0 ≤ m1 ≤ 6 →
  0 ≤ m2 ≤ 6 →
  let r1 := score m1 draw_numbers mapped in
  let r2 := score m2 draw_numbers mapped in
  let s1 := prize_summary (match_counter r1) jackpot mapped in
  let s2 := prize_summary (match_counter r2) jackpot mapped in
  match_counter r1 = match_counter r2
  ∧ total_fixed s1 = total_fixed s2
  ∧ total_jackpot s1 = total_jackpot s2
  ∧ grand_total s1 = grand_total s2
  ∧ net_profit s1 = net_profit s2
  ∧ hit_blocks r1
    = filter (λ e : Z * list Z * list Z, m1 ≤ Py.len e.2)
        (map (λ ib : Z * list Z, (ib.1, ib.2, hits_of ib.2 draw_numbers))
             (Py.enumerate 1 mapped)).
Proof.
  intros _ _ _ _ r1 r2 s1 s2. subst s1 s2 r1 r2.
  rewrite (score_counter_threshold m1 m2).
  split_and!; try reflexivity.
  unfold score. by rewrite score_foldl_hit_blocks.
Qed.

Lemma threshold_independence_witness :
  let mapped := [[1; 2; 3; 4; 5; 6]; [1; 2; 3; 7; 8; 9]] in
  let r1 := score 0 [1; 2; 3; 4; 5; 6] mapped in
  let r2 := score 6 [1; 2; 3; 4; 5; 6] mapped in
  let s1 := prize_summary (match_counter r1) 30000000 mapped in
  let s2 := prize_summary (match_counter r2) 30000000 mapped in
  match_counter r1 = match_counter r2
  ∧ total_fixed s1 = total_fixed s2
  ∧ total_jackpot s1 = total_jackpot s2
  ∧ grand_total s1 = grand_total s2
  ∧ net_profit s1 = net_profit s2
  ∧ hit_blocks r1
    = filter (λ e : Z * list Z * list Z, 0 ≤ Py.len e.2)
        (map (λ ib : Z * list Z, (ib.1, ib.2, hits_of ib.2 [1; 2; 3; 4; 5; 6]))
             (Py.enumerate 1 mapped)).
Proof.
  apply (threshold_independence [[1; 2; 3; 4; 5; 6]; [1; 2; 3; 7; 8; 9]]
           [1; 2; 3; 4; 5; 6] 30000000 0 6).
  - reflexivity.
  - compute_done.
  - lia.
  - lia.
Defined.

(** Claim C2.  Histogram totality.  Whatever the threshold and the draw, the
    counts stored in [match_counter] add up to the number of mapped
    blocks. *)
Theorem histogram_totality (mapped : list (list Z)) (draw_numbers : list Z)
    (min_hits : Z) :
  sum_values (match_counter (score min_hits draw_numbers mapped))
  = Py.len mapped.
Proof.
  unfold score. rewrite score_foldl_sum. simpl.
  rewrite sum_values_empty. unfold Py.len.
  by rewrite enumerate_length.
Qed.

(** Claim C4.  Intersection correctness.  For a mapped block and a draw of 6
    distinct numbers, the hit list is strictly increasing, holds exactly the
    numbers that are both in the block and in the draw, and its length, the
    hit count, is the size of the intersection of the two sets, which is the
    number of drawn numbers occurring in the block and at most 6.  Repeated
    values in the block change nothing: the block with its repetitions
    removed has the same hit list.  This hit list and count are what the
    loop records for the block. *)
Theorem intersection_correctness (block draw_numbers : list Z) :
  length draw_numbers = 6%nat →
  NoDup draw_numbers →
  let hits := hits_of block draw_numbers in
  StronglySorted Z.lt hits
  ∧ (∀ x, x ∈ hits ↔ x ∈ block ∧ x ∈ draw_numbers)
  ∧ Py.len hits = Z.of_nat (size (Py.set block ∩ Py.set draw_numbers))
  ∧ Py.len hits = Py.len (filter (λ d, d ∈ block) draw_numbers)
  ∧ 0 ≤ Py.len hits ≤ 6
  ∧ hits_of (remove_dups block) draw_numbers = hits
  ∧ (∀ (min_hits i : Z) (st : scored),
       score_step min_hits draw_numbers st (i, block)
       = Scored
           (if decide (min_hits ≤ Py.len hits)
            then hit_blocks st ++ [(i, block, hits)] else hit_blocks st)
           (<[Py.len hits := Py.get (match_counter st) (Py.len hits) 0 + 1]>
              (match_counter st))).
Proof.
  intros Hlen Hnd hits. subst hits.
  assert (Py.len (hits_of block draw_numbers)
          = Py.len (filter (λ d, d ∈ block) draw_numbers)) as Hcount.
  { unfold Py.len. by rewrite hits_of_count_drawn. }
  split_and!.
  - apply sorted_increasing.
  - apply hits_of_elem_of.
  - unfold hits_of, Py.len. by rewrite sorted_length.
  - exact Hcount.
  - unfold Py.len. lia.
  - rewrite Hcount. unfold Py.len.
    pose proof (length_filter (λ d, d ∈ block) draw_numbers). lia.
  - unfold hits_of. by rewrite set_remove_dups.
  - reflexivity.
Qed.

Lemma intersection_correctness_witness :
  let hits := hits_of [9; 3; 3; 5; 9; 40] [5; 1; 9; 3; 7; 2] in
  StronglySorted Z.lt hits
  ∧ (∀ x, x ∈ hits ↔ x ∈ [9; 3; 3; 5; 9; 40] ∧ x ∈ [5; 1; 9; 3; 7; 2])
  ∧ Py.len hits
    = Z.of_nat (size (Py.set [9; 3; 3; 5; 9; 40] ∩ Py.set [5; 1; 9; 3; 7; 2]))
  ∧ Py.len hits
    = Py.len (filter (λ d, d ∈ [9; 3; 3; 5; 9; 40]) [5; 1; 9; 3; 7; 2])
  ∧ 0 ≤ Py.len hits ≤ 6
  ∧ hits_of (remove_dups [9; 3; 3; 5; 9; 40]) [5; 1; 9; 3; 7; 2] = hits
  ∧ (∀ (min_hits i : Z) (st : scored),
       score_step min_hits [5; 1; 9; 3; 7; 2] st (i, [9; 3; 3; 5; 9; 40])
       = Scored
           (if decide (min_hits ≤ Py.len hits)
            then hit_blocks st ++ [(i, [9; 3; 3; 5; 9; 40], hits)]
            else hit_blocks st)
           (<[Py.len hits := Py.get (match_counter st) (Py.len hits) 0 + 1]>
              (match_counter st))).
Proof.
  apply (intersection_correctness [9; 3; 3; 5; 9; 40] [5; 1; 9; 3; 7; 2]).
  - reflexivity.
  - compute_done.
Defined.

Example hits_of_duplicates :
  hits_of [9; 3; 3; 5; 9; 40] [5; 1; 9; 3; 7; 2] = [3; 5; 9].
Proof. vm_compute. reflexivity. Qed.

Lemma prize_calc_fields (counter : gmap Z Z) (jackpot blocks_count : Z) :
  let s := prize_calc counter jackpot blocks_count in
  total_fixed s
  = Py.get counter 5 0 * 24000 + Py.get counter 4 0 * 800
    + Py.get counter 3 0 * 20
  ∧ total_jackpot s = Py.get counter 6 0 * jackpot
  ∧ grand_total s = total_fixed s + total_jackpot s
  ∧ total_cost s = blocks_count * 20.
Proof.
  intros s. subst s. unfold prize_calc, Py.sum. simpl.
  split_and!; reflexivity.
Qed.

(** Claim C5.  Prize arithmetic.  For every histogram, jackpot amount and number
    of blocks: [total_fixed] is the sum over the prize table (5 hits pay
    24000, 4 pay 800, 3 pay 20) of the count stored for the tier, 0 when
    absent, times its prize; [total_jackpot] is the count stored for 6 hits
    times the jackpot amount; [grand_total] is their sum; [total_cost] is the
    number of blocks times the ticket price; [net_profit] is [grand_total]
    minus [total_cost].  For the histogram with 2 blocks at 3 hits and 1 at
    4, jackpot 30000000, ticket price 20 and 10 blocks the figures are 840,
    0, 840, 200 and 640. *)
Theorem prize_arithmetic (counter : gmap Z Z) (jackpot blocks_count : Z) :
  let s := prize_calc counter jackpot blocks_count in
  prize_table = [(5, 24000); (4, 800); (3, 20)]
  ∧ total_fixed s
    = Py.get counter 5 0 * 24000 + Py.get counter 4 0 * 800
      + Py.get counter 3 0 * 20
  ∧ total_jackpot s = Py.get counter 6 0 * jackpot
  ∧ grand_total s = total_fixed s + total_jackpot s
  ∧ total_blocks s = blocks_count
  ∧ total_cost s = blocks_count * ticket_price
  ∧ net_profit s = grand_total s - total_cost s
  ∧ ticket_price = 20
  ∧ prize_calc {[3 := 2; 4 := 1]} 30000000 10
    = Summary 0 840 0 840 10 200 640.
Proof.
  intros s. subst s.
  pose proof (prize_calc_fields counter jackpot blocks_count)
    as (Hf & Hj & Hg & Hc).
  split_and!; try done.
Qed.

(** Claim C6 as stated fails: on [negative_jackpot_page] the run completes
    with one mapped block that matches all six drawn numbers, and
    [total_jackpot] and [grand_total] are -1000000. *)
Lemma negative_jackpot_counterexample :
  match run negative_jackpot_page with
  | inr r =>
      mapped_blocks (block_result r) = [[1; 2; 3; 4; 5; 6]]
      ∧ total_jackpot (prizes r) = -1000000
      ∧ grand_total (prizes r) = -1000000
      ∧ ¬ (0 ≤ total_jackpot (prizes r))
      ∧ ¬ (0 ≤ grand_total (prizes r))
  | inl _ => False
  end.
Proof. vm_compute. split_and!; try reflexivity; intros H; apply H; reflexivity. Qed.

(** Claim C6, amended.  For every histogram the match loop produces,
    [total_fixed] and [total_cost] are non-negative whatever the jackpot
    amount, and [total_jackpot] and [grand_total] are non-negative whenever
    the jackpot amount is. *)
Theorem prize_nonnegativity (mapped : list (list Z)) (draw_numbers : list Z)
    (min_hits jackpot : Z) :
  let s := prize_summary
             (match_counter (score min_hits draw_numbers mapped))
             jackpot mapped in
  (0 ≤ total_fixed s ∧ 0 ≤ total_cost s)
  ∧ (0 ≤ jackpot → 0 ≤ total_jackpot s ∧ 0 ≤ grand_total s).
Proof.
  intros s. subst s.
  set (counter := match_counter (score min_hits draw_numbers mapped)).
  pose proof (score_counter_nonneg min_hits draw_numbers mapped) as Hpos.
  fold counter in Hpos.
  pose proof (prize_calc_fields counter jackpot (Py.len mapped))
    as (Hf & Hj & Hg & Hc).
  unfold prize_summary. rewrite Hg, Hf, Hj, Hc.
  pose proof (Hpos 3). pose proof (Hpos 4).
  pose proof (Hpos 5). pose proof (Hpos 6).
  assert (0 ≤ Py.len mapped) by (unfold Py.len; lia).
  split; [lia|]. intros Hjack. split; nia.
Qed.

Lemma prize_nonnegativity_witness :
  let s := prize_summary
             (match_counter (score 1 [1; 2; 3; 4; 5; 6]
                               [[1; 2; 3; 4; 5; 6]; [1; 2; 3; 7; 8; 9]]))
             30000000 [[1; 2; 3; 4; 5; 6]; [1; 2; 3; 7; 8; 9]] in
  0 ≤ total_jackpot s ∧ 0 ≤ grand_total s.
Proof.
  apply (prize_nonnegativity [[1; 2; 3; 4; 5; 6]; [1; 2; 3; 7; 8; 9]]
           [1; 2; 3; 4; 5; 6] 1 30000000).
  lia.
Defined.

(** ** Strings: digits, white space and [int] *)

Lemma isdigit_not_space (c : ascii) :
  Py.isdigit c = true → Py.isspace_int c = false.
Proof.
  destruct c as [b0 b1 b2 b3 b4 b5 b6 b7].
  destruct b0, b1, b2, b3, b4, b5, b6, b7; vm_compute;
    intros; try reflexivity; discriminate.
Qed.

Lemma isdigit_not_sign (c : ascii) :
  Py.isdigit c = true →
  Ascii.eqb c "-"%char = false ∧ Ascii.eqb c "+"%char = false.
Proof.
  intros Hc. split.
  - destruct (Ascii.eqb_spec c "-"%char) as [->|]; [discriminate | done].
  - destruct (Ascii.eqb_spec c "+"%char) as [->|]; [discriminate | done].
Qed.

Lemma lstrip_digit (c : ascii) (s : Py.str) :
  Py.isdigit c = true → Py.lstrip_by Py.isspace_int (c :: s) = c :: s.
Proof. intros Hc. simpl. by rewrite (isdigit_not_space c Hc). Qed.

Lemma strip_digits (g : Py.str) :
  Forall (λ c, Py.isdigit c = true) g → Py.strip_by Py.isspace_int g = g.
Proof.
  intros Hg. unfold Py.strip_by.
  assert (∀ s, Forall (λ c, Py.isdigit c = true) s
               → Py.lstrip_by Py.isspace_int s = s) as Hl.
  { intros s Hs. destruct Hs; [reflexivity | by apply lstrip_digit]. }
  rewrite (Hl g Hg), Hl; [apply rev_involutive|].
  by apply List.Forall_rev.
Qed.

Lemma digitpart_digits (g : Py.str) (acc : Z) (prev : bool) :
  Forall (λ c, Py.isdigit c = true) g →
  prev = true ∨ g ≠ [] →
  Py.digitpart acc prev g
  = Some (acc * 10 ^ Z.of_nat (length g) + decimal_value g).
Proof.
  intros Hg. revert acc prev.
  induction Hg as [|c g Hc Hg IH]; intros acc prev Hprev.
  - destruct Hprev as [->|]; [|done]. simpl. f_equal. lia.
  - cbn [Py.digitpart decimal_value length]. rewrite Hc.
    rewrite IH by (by left). f_equal.
    rewrite Nat2Z.inj_succ, Z.pow_succ_r by lia. lia.
Qed.

Lemma count_digits_all (g : Py.str) :
  Forall (λ c, Py.isdigit c = true) g → Py.count_digits g = Py.len g.
Proof.
  intros Hg. unfold Py.count_digits. f_equal.
  induction Hg as [|c g Hc _ IH]; [reflexivity|].
  simpl. by rewrite Hc, IH.
Qed.

Lemma int_digits (g : Py.str) :
  Forall (λ c, Py.isdigit c = true) g → g ≠ [] →
  Py.int g
  = if decide (Py.max_str_digits < Py.len g) then None
    else Some (decimal_value g).
Proof.
  intros Hg Hne. unfold Py.int. rewrite (count_digits_all g Hg).
  case_decide; [reflexivity|].
  rewrite (strip_digits g Hg).
  destruct Hg as [|c g Hc Hg]; [done|].
  destruct (isdigit_not_sign c Hc) as [-> ->].
  rewrite digitpart_digits; [|by constructor | by right].
  reflexivity.
Qed.

Lemma digit_run_app (ds rest : Py.str) :
  Forall (λ c, Py.isdigit c = true) ds →
  no_leading_digit rest →
  digit_run (ds ++ rest) = ds.
Proof.
  intros Hds Hrest. induction Hds as [|c ds Hc Hds IH]; simpl.
  - destruct rest as [|c rest]; [reflexivity|]. simpl.
    by rewrite (Hrest c eq_refl).
  - by rewrite Hc, IH.
Qed.

Lemma digit_run_split (s : Py.str) :
  ∃ rest,
    s = digit_run s ++ rest
    ∧ Forall (λ c, Py.isdigit c = true) (digit_run s)
    ∧ no_leading_digit rest.
Proof.
  induction s as [|c s (rest & Hs & Hd & Hr)]; simpl.
  - exists []. split_and!; [reflexivity | constructor | intros c; discriminate].
  - destruct (Py.isdigit c) eqn:Hc.
    + exists rest. split_and!; [simpl; congruence | by constructor | exact Hr].
    + exists (c :: s). split_and!; [reflexivity | constructor |].
      intros c' [= <-]. exact Hc.
Qed.

Lemma get_v_from_description_run (description : Py.str) :
  get_v_from_description description
  = match digit_run description with
    | [] => inl ValueError
    | g =>
        if decide (Py.max_str_digits < Py.len g) then inl ValueError
        else inr (decimal_value g)
    end.
Proof.
  unfold get_v_from_description, re_match_digits.
  destruct (digit_run_split description) as (rest & _ & Hd & _).
  destruct (digit_run description) as [|c g] eqn:Hrun; [reflexivity|].
  rewrite int_digits by done. by case_decide.
Qed.

(** ** Claim about the description *)

(** Claim C8 as stated fails: [long_digit_description] starts with a decimal
    digit, yet [get_v_from_description] raises [ValueError] on it, because
    its leading run has 4301 digits and [int] refuses more than 4300. *)
Lemma description_digit_limit_counterexample :
  head long_digit_description = Some "1"%char
  ∧ Py.isdigit "1"%char = true
  ∧ get_v_from_description long_digit_description = inl ValueError
  ∧ ¬ (get_v_from_description long_digit_description = inl ValueError
       ↔ no_leading_digit long_digit_description).
Proof.
  assert (get_v_from_description long_digit_description = inl ValueError)
    as Herr by (vm_compute; reflexivity).
  split_and!; [reflexivity | reflexivity | exact Herr |].
  intros [Hno _]. specialize (Hno Herr "1"%char eq_refl). discriminate.
Qed.

(** Claim C8, amended.  Description parsing.  Every description splits into
    its leading run of decimal digits [ds] and a rest that does not start
    with a digit; [get_v_from_description] returns the integer that [ds]
    denotes in decimal when [ds] has between 1 and 4300 digits, and raises
    [ValueError] when [ds] is empty or longer.  So the error is raised
    exactly when the description does not start with a decimal digit or
    starts with more than 4300 of them, no value is ever made up, and
    "8N-3S" gives 8. *)
Theorem description_parsing (description : Py.str) :
  (∃ ds rest,
     description = ds ++ rest
     ∧ Forall (λ c, Py.isdigit c = true) ds
     ∧ no_leading_digit rest
     ∧ get_v_from_description description
       = match ds with
         | [] => inl ValueError
         | _ :: _ =>
             if decide (Py.len ds ≤ 4300) then inr (decimal_value ds)
             else inl ValueError
         end)
  ∧ (∀ ds rest,
       description = ds ++ rest →
       ds ≠ [] →
       Forall (λ c, Py.isdigit c = true) ds →
       no_leading_digit rest →
       Py.len ds ≤ 4300 →
       get_v_from_description description = inr (decimal_value ds))
  ∧ (get_v_from_description description = inl ValueError
     ↔ no_leading_digit description
       ∨ 4300 < Py.len (digit_run description))
  ∧ get_v_from_description (Py.lit "8N-3S") = inr 8.
Proof.
  split_and!.
  - destruct (digit_run_split description) as (rest & Hs & Hd & Hr).
    exists (digit_run description), rest.
    split_and!; try done. rewrite get_v_from_description_run.
    destruct (digit_run description); [reflexivity|].
    unfold Py.max_str_digits. repeat case_decide; try reflexivity; lia.
  - intros ds rest -> Hne Hds Hrest Hlen.
    rewrite get_v_from_description_run, digit_run_app by done.
    destruct ds; [done|].
    unfold Py.max_str_digits. case_decide; [lia | reflexivity].
  - rewrite get_v_from_description_run. unfold no_leading_digit.
    destruct description as [|c s].
    + split; [left; intros c; discriminate | reflexivity].
    + cbn [digit_run head]. destruct (Py.isdigit c) eqn:Hc.
      * unfold Py.max_str_digits. case_decide.
        -- split; [by right | reflexivity].
        -- split; [discriminate|].
           intros [Hn|Hn]; [specialize (Hn c eq_refl); congruence | lia].
      * split; [|reflexivity]. intros _. left. intros c' [= <-]. exact Hc.
  - vm_compute. reflexivity.
Qed.

Lemma description_parsing_witness :
  get_v_from_description (Py.lit "08-06-03") = inr 8.
Proof.
  apply (proj1 (proj2 (description_parsing (Py.lit "08-06-03")))
           (Py.lit "08") (Py.lit "-06-03")).
  - reflexivity.
  - discriminate.
  - repeat constructor.
  - intros c [= <-]. reflexivity.
  - vm_compute. discriminate.
Defined.

(** ** Reading the drawn numbers *)

Lemma size_set_le (l : list Z) : (size (Py.set l) ≤ length l)%nat.
Proof.
  unfold Py.set. induction l as [|x l IH].
  - rewrite list_to_set_nil, size_empty. simpl. lia.
  - rewrite list_to_set_cons. simpl length.
    destruct (decide (x ∈ (list_to_set l : gset Z))) as [Hx|Hx].
    + rewrite (subseteq_union_1_L {[x]} (list_to_set l))
        by (by apply singleton_subseteq_l).
      lia.
    + rewrite size_union by (by apply disjoint_singleton_l).
      rewrite size_singleton. lia.
Qed.

Lemma size_set_NoDup (l : list Z) :
  size (Py.set l) = length l ↔ NoDup l.
Proof.
  split; [|apply size_list_to_set].
  unfold Py.set. induction l as [|x l IH]; intros Hsz.
  - constructor.
  - rewrite list_to_set_cons in Hsz. simpl length in Hsz.
    destruct (decide (x ∈ (list_to_set l : gset Z))) as [Hx|Hx].
    + rewrite (subseteq_union_1_L {[x]} (list_to_set l)) in Hsz
        by (by apply singleton_subseteq_l).
      pose proof (size_set_le l) as Hle. unfold Py.set in Hle. lia.
    + rewrite size_union, size_singleton in Hsz
        by (by apply disjoint_singleton_l).
      constructor.
      * by rewrite elem_of_list_to_set in Hx.
      * apply IH. lia.
Qed.

Lemma read_draw_numbers_inr (draw_input : Py.str) (ds : list Z) :
  read_draw_numbers draw_input = inr ds
  ↔ parse_numbers draw_input = Some ds ∧ length ds = 6%nat ∧ NoDup ds.
Proof.
  unfold read_draw_numbers.
  destruct (parse_numbers draw_input) as [ds'|];
    [|split; [discriminate | intros [? _]; discriminate]].
  case_decide as Hbad.
  - split; [discriminate|]. intros ([= ->] & Hlen & Hnd).
    apply size_set_NoDup in Hnd. unfold Py.len in Hbad. lia.
  - split.
    + intros [= ->]. split; [reflexivity|].
      assert (length ds = 6%nat ∧ size (Py.set ds) = 6%nat) as [Hl Hs]
        by (unfold Py.len in Hbad; lia).
      split; [exact Hl|]. apply size_set_NoDup. lia.
    + by intros ([= ->] & _).
Qed.

Lemma read_draw_numbers_inl (draw_input : Py.str) :
  (¬ ∃ ds, parse_numbers draw_input = Some ds
           ∧ length ds = 6%nat ∧ NoDup ds) →
  ∃ e, read_draw_numbers draw_input = inl e
       ∧ (e = NotSixUnique ∨ e = InvalidDrawnFormat).
Proof.
  intros Hno.
  destruct (read_draw_numbers draw_input) as [e|ds] eqn:Hr.
  - exists e. split; [reflexivity|].
    unfold read_draw_numbers in Hr.
    destruct (parse_numbers draw_input);
      [|injection Hr as <-; by right].
    case_decide; [injection Hr as <-; by left | discriminate].
  - apply read_draw_numbers_inr in Hr. destruct Hno. eauto.
Qed.

Lemma run_after_inputs (p : page) (vd : Z) (us : list Z) :
  designs p ≠ [] →
  get_v_from_description (selected p) = inr vd →
  read_user_numbers (user_input p) = inr us →
  run p
  = match read_draw_numbers (draw_input p) with
    | inl e => inl e
    | inr ds =>
        let c := classify us (Py.len us) (blocks p) in
        let s := score (min_hits p) ds (mapped_blocks c) in
        inr (Report vd us ds c s
               (prize_summary (match_counter s) (jackpot_amount p)
                              (mapped_blocks c)))
    end.
Proof.
  intros Hd Hv Hu. unfold run, nonempty_designs.
  destruct (designs p); [done|].
  rewrite Hv, Hu. simpl.
  by destruct (read_draw_numbers (draw_input p)).
Qed.

(** ** Claim about the drawn numbers *)

(** Claim C7.  Drawn-numbers validation.  Take a run that got past the design
    list, the description and the base numbers.  If the drawn input parses
    to exactly 6 pairwise distinct integers, the run goes on to the end with
    them as the draw.  Otherwise it stops with one of the two drawn-number
    errors, and it does so whatever blocks the store holds and whatever the
    threshold and the jackpot amount are: nothing is mapped or scored.  The
    input "1,1,2,3,4,5" is refused as not being 6 unique numbers. *)
Theorem drawn_numbers_validation (p : page) (vd : Z) (us : list Z) :
  designs p ≠ [] →
  get_v_from_description (selected p) = inr vd →
  read_user_numbers (user_input p) = inr us →
  (∀ ds,
     parse_numbers (draw_input p) = Some ds →
     length ds = 6%nat →
     NoDup ds →
     ∃ r, run p = inr r ∧ draw_numbers r = ds)
  ∧ ((¬ ∃ ds, parse_numbers (draw_input p) = Some ds
              ∧ length ds = 6%nat ∧ NoDup ds) →
     ∃ e,
       (e = NotSixUnique ∨ e = InvalidDrawnFormat)
       ∧ run p = inl e
       ∧ ∀ blocks' min_hits' jackpot',
           run (Page (designs p) (selected p) blocks' (user_input p)
                     (draw_input p) min_hits' jackpot') = inl e)
  ∧ (draw_input p = Py.lit "1,1,2,3,4,5" → run p = inl NotSixUnique).
Proof.
  intros Hd Hv Hu. split_and!.
  - intros ds Hp Hlen Hnd.
    rewrite (run_after_inputs p vd us Hd Hv Hu).
    rewrite (proj2 (read_draw_numbers_inr _ ds)) by done.
    eexists. split; reflexivity.
  - intros Hno.
    destruct (read_draw_numbers_inl _ Hno) as (e & Hr & He).
    exists e. split_and!; [exact He | |].
    + by rewrite (run_after_inputs p vd us Hd Hv Hu), Hr.
    + intros blocks' min_hits' jackpot'.
      rewrite (run_after_inputs
                 (Page (designs p) (selected p) blocks' (user_input p)
                       (draw_input p) min_hits' jackpot') vd us Hd Hv Hu).
      simpl. by rewrite Hr.
  - intros Hin.
    rewrite (run_after_inputs p vd us Hd Hv Hu), Hin. reflexivity.
Qed.

Lemma drawn_numbers_validation_witness :
  (∃ r, run valid_draw_page = inr r
        ∧ draw_numbers r = [7; 5; 3; 2; 1; 4])
  ∧ run duplicate_draw_page = inl NotSixUnique.
Proof.
  split.
  - apply (proj1 (drawn_numbers_validation valid_draw_page 8
                    [1; 2; 3; 4; 5; 6; 7; 8]
                    ltac:(discriminate) eq_refl eq_refl));
      [reflexivity | reflexivity | compute_done].
  - apply (proj2 (proj2 (drawn_numbers_validation duplicate_draw_page 6
                    [1; 2; 3; 4; 5; 6] ltac:(discriminate) eq_refl eq_refl))).
    reflexivity.
Defined.

(** * Further properties *)

(** ** Printing and reading integers *)

Lemma chr_digit_spec (d : Z) :
  0 ≤ d ≤ 9 →
  Py.isdigit (Py.chr_digit d) = true ∧ Py.digit (Py.chr_digit d) = d.
Proof.
  intros Hd.
  assert (d = 0 ∨ d = 1 ∨ d = 2 ∨ d = 3 ∨ d = 4 ∨ d = 5 ∨ d = 6 ∨ d = 7
          ∨ d = 8 ∨ d = 9) as Hcases by lia.
  repeat (destruct Hcases as [->|Hcases]; [split; reflexivity|]).
  subst. split; reflexivity.
Qed.

Lemma digits_aux_digits (fuel : nat) (n : Z) (acc : Py.str) :
  0 ≤ n →
  Forall (λ c, Py.isdigit c = true) acc →
  Forall (λ c, Py.isdigit c = true) (Py.digits_aux fuel n acc).
Proof.
  revert n acc. induction fuel as [|fuel IH]; intros n acc Hn Hacc; simpl.
  - exact Hacc.
  - assert (Forall (λ c, Py.isdigit c = true)
              (Py.chr_digit (n mod 10) :: acc)) as Hacc'.
    { constructor; [|exact Hacc].
      apply chr_digit_spec. pose proof (Z.mod_pos_bound n 10). lia. }
    destruct (n <? 10); [exact Hacc'|].
    apply IH; [|exact Hacc']. apply Z.div_pos; lia.
Qed.

Lemma digits_aux_value (fuel : nat) (n : Z) (acc : Py.str) :
  0 ≤ n < 2 ^ Z.of_nat fuel →
  decimal_value (Py.digits_aux fuel n acc)
  = n * 10 ^ Z.of_nat (length acc) + decimal_value acc.
Proof.
  revert n acc. induction fuel as [|fuel IH]; intros n acc Hn.
  - simpl in *. assert (n = 0) as -> by lia. lia.
  - cbn [Py.digits_aux].
    assert (0 ≤ n mod 10 ≤ 9) as Hd
      by (pose proof (Z.mod_pos_bound n 10); lia).
    destruct (chr_digit_spec _ Hd) as [_ Hdig].
    destruct (Z.ltb_spec n 10) as [Hlt|Hge].
    + cbn [decimal_value]. rewrite Hdig, Z.mod_small by lia. reflexivity.
    + rewrite IH.
      * cbn [decimal_value length]. rewrite Hdig.
        rewrite Nat2Z.inj_succ, Z.pow_succ_r by lia.
        pose proof (Z.div_mod n 10). lia.
      * rewrite Nat2Z.inj_succ, Z.pow_succ_r in Hn by lia.
        split; [apply Z.div_pos; lia|].
        apply Z.div_lt_upper_bound; lia.
Qed.

Lemma digits_aux_nonempty (fuel : nat) (n : Z) (acc : Py.str) :
  Py.digits_aux (S fuel) n acc ≠ [].
Proof.
  revert n acc. induction fuel as [|fuel IH]; intros n acc.
  - simpl. by destruct (n <? 10).
  - cbn [Py.digits_aux]. destruct (n <? 10); [done|]. apply IH.
Qed.

Lemma digits_spec (n : Z) :
  0 ≤ n →
  Py.digits n ≠ []
  ∧ Forall (λ c, Py.isdigit c = true) (Py.digits n)
  ∧ decimal_value (Py.digits n) = n.
Proof.
  intros Hn. unfold Py.digits. split_and!.
  - apply digits_aux_nonempty.
  - apply digits_aux_digits; [exact Hn | constructor].
  - rewrite digits_aux_value; [simpl; lia|].
    split; [exact Hn|].
    destruct (decide (n = 0)) as [->|Hpos]; [reflexivity|].
    rewrite Nat2Z.inj_succ, Z2Nat.id by apply Z.log2_nonneg.
    apply Z.log2_spec. lia.
Qed.

(** A character of a printed integer: a digit or the minus sign. *)
Lemma numchar_not_space (c : ascii) :
  Py.isdigit c = true ∨ c = "-"%char →
  Py.isspace c = false ∧ Py.isspace_int c = false
  ∧ Ascii.eqb c ","%char = false.
Proof.
  intros [Hc| ->]; [|split_and!; reflexivity].
  destruct c as [b0 b1 b2 b3 b4 b5 b6 b7].
  destruct b0, b1, b2, b3, b4, b5, b6, b7;
    try discriminate Hc; split_and!; reflexivity.
Qed.

Lemma decimal_chars (n : Z) :
  Py.decimal n ≠ []
  ∧ Forall (λ c, Py.isdigit c = true ∨ c = "-"%char) (Py.decimal n).
Proof.
  unfold Py.decimal. destruct (Z.ltb_spec n 0) as [Hneg|Hpos].
  - split; [done|]. constructor; [by right|].
    destruct (digits_spec (- n)) as (_ & Hd & _); [lia|].
    eapply Forall_impl; [exact Hd|]. simpl. auto.
  - destruct (digits_spec n Hpos) as (Hne & Hd & _).
    split; [exact Hne|].
    eapply Forall_impl; [exact Hd|]. simpl. auto.
Qed.

Lemma lstrip_by_pad (sp : ascii → bool) (pad s : Py.str) :
  Forall (λ c, sp c = true) pad →
  Py.lstrip_by sp (pad ++ s) = Py.lstrip_by sp s.
Proof.
  induction 1 as [|c pad Hc _ IH]; simpl; [reflexivity|]. by rewrite Hc.
Qed.

Lemma lstrip_by_head (sp : ascii → bool) (c : ascii) (s : Py.str) :
  sp c = false → Py.lstrip_by sp (c :: s) = c :: s.
Proof. intros Hc. simpl. by rewrite Hc. Qed.

(** Stripping removes a padding of white space in front of a text whose first
    and last characters are not white space. *)
Lemma strip_by_pad (sp : ascii → bool) (pad s : Py.str) :
  Forall (λ c, sp c = true) pad →
  s ≠ [] →
  Forall (λ c, sp c = false) s →
  Py.strip_by sp (pad ++ s) = s.
Proof.
  intros Hpad Hne Hs. unfold Py.strip_by.
  rewrite lstrip_by_pad by exact Hpad.
  destruct s as [|c s]; [done|].
  rewrite lstrip_by_head by (by inversion Hs).
  apply List.Forall_rev in Hs.
  destruct (rev (c :: s)) as [|d r] eqn:Hrev.
  - apply (f_equal (@length ascii)) in Hrev.
    rewrite length_rev in Hrev. discriminate.
  - rewrite lstrip_by_head by (by inversion Hs).
    by rewrite <- Hrev, rev_involutive.
Qed.

Lemma count_digits_app (a b : Py.str) :
  Py.count_digits (a ++ b) = Py.count_digits a + Py.count_digits b.
Proof.
  unfold Py.count_digits, Py.len.
  rewrite List.filter_app, length_app. lia.
Qed.

Lemma count_digits_pad (pad : Py.str) :
  Forall (λ c, Py.isspace_int c = true) pad → Py.count_digits pad = 0.
Proof.
  unfold Py.count_digits, Py.len.
  induction 1 as [|c pad Hc _ IH]; [reflexivity|]. simpl.
  destruct (Py.isdigit c) eqn:Hd; [|exact IH].
  apply isdigit_not_space in Hd. congruence.
Qed.

Lemma count_digits_decimal (n : Z) :
  Py.count_digits (Py.decimal n) = Py.len (Py.digits (Z.abs n)).
Proof.
  unfold Py.decimal. destruct (Z.ltb_spec n 0) as [Hneg|Hpos].
  - rewrite Z.abs_neq by lia.
    destruct (digits_spec (- n)) as (_ & Hd & _); [lia|].
    change ("-"%char :: Py.digits (- n))
      with (["-"%char] ++ Py.digits (- n)).
    rewrite count_digits_app, (count_digits_all _ Hd). reflexivity.
  - rewrite Z.abs_eq by lia.
    destruct (digits_spec n Hpos) as (_ & Hd & _).
    apply count_digits_all, Hd.
Qed.

Lemma int_decimal_pad (pad : Py.str) (n : Z) :
  Forall (λ c, Py.isspace_int c = true) pad →
  Py.len (Py.digits (Z.abs n)) ≤ Py.max_str_digits →
  Py.int (pad ++ Py.decimal n) = Some n.
Proof.
  intros Hpad Hfit. unfold Py.int.
  rewrite count_digits_app, (count_digits_pad pad Hpad),
    count_digits_decimal, Z.add_0_l.
  rewrite decide_False by lia.
  destruct (decimal_chars n) as [Hne Hchars].
  rewrite strip_by_pad; [|exact Hpad|exact Hne|].
  2:{ eapply Forall_impl; [exact Hchars|]. simpl.
      intros c Hc. by apply numchar_not_space. }
  unfold Py.decimal. destruct (Z.ltb_spec n 0) as [Hneg|Hpos].
  - simpl. destruct (digits_spec (- n)) as (Hdne & Hd & Hv); [lia|].
    rewrite digitpart_digits by (auto).
    simpl. f_equal. rewrite Hv. lia.
  - destruct (digits_spec n Hpos) as (Hdne & Hd & Hv).
    destruct (Py.digits n) as [|c s] eqn:Hds; [done|].
    assert (Py.isdigit c = true) as Hc by (by inversion Hd).
    destruct (isdigit_not_sign c Hc) as [-> ->].
    rewrite digitpart_digits by (auto). by rewrite Hv.
Qed.

(** ** Splitting a joined text *)

Lemma split_no_sep (sep : ascii) (x rest : Py.str) :
  Forall (λ c, Ascii.eqb c sep = false) x →
  Py.split sep (x ++ sep :: rest) = x :: Py.split sep rest.
Proof.
  induction 1 as [|c x Hc _ IH]; simpl.
  - by rewrite Ascii.eqb_refl.
  - by rewrite Hc, IH.
Qed.

Lemma split_no_sep_end (sep : ascii) (x : Py.str) :
  Forall (λ c, Ascii.eqb c sep = false) x →
  Py.split sep x = [x].
Proof.
  induction 1 as [|c x Hc _ IH]; simpl; [reflexivity|]. by rewrite Hc, IH.
Qed.

Lemma join_cons (sep x : Py.str) (l : list Py.str) :
  Py.join sep (x :: l) = x ++ concat (map (λ y, sep ++ y) l).
Proof.
  revert x. induction l as [|y l IH]; intros x.
  - simpl. by rewrite app_nil_r.
  - change (Py.join sep (x :: y :: l))
      with (x ++ sep ++ Py.join sep (y :: l)).
    rewrite IH. cbn [map concat]. by rewrite <- app_assoc.
Qed.

Lemma split_joined (x : Py.str) (l : list Py.str) :
  Forall (Forall (λ c, Ascii.eqb c ","%char = false)) (x :: l) →
  Py.split ","%char (x ++ concat (map (λ y, Py.lit ", " ++ y) l))
  = x :: map (λ y, " "%char :: y) l.
Proof.
  revert x. induction l as [|y l IH]; intros x Hall.
  - simpl. rewrite app_nil_r. apply split_no_sep_end. by inversion Hall.
  - cbn [map concat]. change (Py.lit ", " ++ y) with (","%char :: " "%char :: y).
    inversion Hall as [|? ? Hx Hrest]; subst.
    cbn [app].
    rewrite split_no_sep by exact Hx. f_equal.
    change (" "%char :: y ++ concat (map (λ y0, Py.lit ", " ++ y0) l))
      with ((" "%char :: y) ++ concat (map (λ y0, Py.lit ", " ++ y0) l)).
    rewrite IH; [reflexivity|].
    inversion Hrest; subst. constructor; [|done]. by constructor.
Qed.

Lemma ends_well_app (sp : ascii → bool) (a b : Py.str) :
  ends_well sp b → ends_well sp (a ++ b).
Proof.
  intros (s' & d & -> & Hd). exists (a ++ s'), d.
  split; [by rewrite app_assoc | exact Hd].
Qed.

Lemma ends_well_Forall (sp : ascii → bool) (s : Py.str) :
  s ≠ [] → Forall (λ c, sp c = false) s → ends_well sp s.
Proof.
  intros Hne Hs. destruct s as [|c s] using rev_ind; [done|].
  exists s, c. split; [reflexivity|].
  apply Forall_app in Hs as [_ Hc]. by inversion Hc.
Qed.

Lemma strip_by_ends (sp : ascii → bool) (c : ascii) (s : Py.str) :
  sp c = false → ends_well sp (c :: s) →
  Py.strip_by sp (c :: s) = c :: s.
Proof.
  intros Hc (s' & d & Heq & Hd). unfold Py.strip_by.
  rewrite lstrip_by_head by exact Hc.
  rewrite Heq, rev_app_distr. simpl.
  rewrite Hd. simpl. by rewrite rev_involutive.
Qed.

Lemma decimal_strip (sp : ascii → bool) (pad : Py.str) (n : Z) :
  (∀ c, Py.isdigit c = true ∨ c = "-"%char → sp c = false) →
  Forall (λ c, sp c = true) pad →
  Py.strip_by sp (pad ++ Py.decimal n) = Py.decimal n.
Proof.
  intros Hsp Hpad. destruct (decimal_chars n) as [Hne Hchars].
  apply strip_by_pad; [exact Hpad | exact Hne |].
  eapply Forall_impl; [exact Hchars|]. exact Hsp.
Qed.

Lemma joined_ends_well (ns : list Z) :
  ns ≠ [] →
  ends_well Py.isspace
    (concat (map (λ y, Py.lit ", " ++ y) (map Py.decimal ns))).
Proof.
  induction ns as [|n ns IH]; [done|]. intros _. cbn [map concat].
  destruct ns as [|m ns].
  - cbn [map concat]. rewrite app_nil_r.
    apply (ends_well_app Py.isspace (Py.lit ", ") (Py.decimal n)).
    destruct (decimal_chars n) as [Hne Hchars].
    apply ends_well_Forall; [exact Hne|].
    eapply Forall_impl; [exact Hchars|].
    intros c Hc. by apply numchar_not_space.
  - apply (ends_well_app Py.isspace (Py.lit ", " ++ Py.decimal n)).
    by apply IH.
Qed.

Lemma strip_joined (ns : list Z) :
  Py.strip (Py.join (Py.lit ", ") (map Py.decimal ns))
  = Py.join (Py.lit ", ") (map Py.decimal ns).
Proof.
  destruct ns as [|n ns]; [reflexivity|].
  cbn [map]. rewrite join_cons.
  destruct (decimal_chars n) as [Hne Hchars].
  destruct (Py.decimal n) as [|c s] eqn:Hn; [done|].
  unfold Py.strip. cbn [app]. apply strip_by_ends.
  - apply numchar_not_space. by inversion Hchars.
  - destruct ns as [|m ns].
    + cbn [map concat]. rewrite app_nil_r.
      apply ends_well_Forall; [done|].
      eapply Forall_impl; [exact Hchars|].
      intros d Hd. by apply numchar_not_space.
    + apply (ends_well_app Py.isspace (c :: s)).
      by apply joined_ends_well.
Qed.

Lemma read_padded (ps : list (Py.str * Z)) :
  Forall (λ p : Py.str * Z,
            Forall (λ c, Py.isspace c = true ∧ Py.isspace_int c = true) p.1
            ∧ Py.len (Py.digits (Z.abs p.2)) ≤ Py.max_str_digits)
         ps →
  mapM Py.int
    (List.filter (λ x, nonempty (Py.strip x))
                 (map (λ p : Py.str * Z, p.1 ++ Py.decimal p.2) ps))
  = Some (map snd ps).
Proof.
  induction 1 as [|[pad n] ps [Hpad Hfit] _ IH]; [reflexivity|].
  cbn [map List.filter fst snd] in *. unfold Py.strip at 1.
  rewrite decimal_strip.
  - destruct (decimal_chars n) as [Hne _].
    destruct (Py.decimal n) as [|c s] eqn:Hn; [done|]. cbn [nonempty].
    rewrite <- Hn. apply mapM_Some. constructor.
    + apply int_decimal_pad; [|exact Hfit].
      eapply Forall_impl; [exact Hpad|]. simpl. by intros ? [_ ?].
    + by apply mapM_Some.
  - intros c Hc. by apply numchar_not_space.
  - eapply Forall_impl; [exact Hpad|]. simpl. by intros ? [? _].
Qed.

Lemma parse_numbers_joined (ns : list Z) :
  Forall (λ n, Py.len (Py.digits (Z.abs n)) ≤ Py.max_str_digits) ns →
  parse_numbers (Py.join (Py.lit ", ") (map Py.decimal ns)) = Some ns.
Proof.
  intros Hfit. unfold parse_numbers. rewrite strip_joined.
  destruct ns as [|n ns]; [reflexivity|].
  cbn [map]. rewrite join_cons, split_joined.
  - pose proof (read_padded (([], n) :: map (λ m, ([" "%char], m)) ns)) as H.
    cbn [map fst snd app] in H.
    rewrite !map_map in H. cbn [fst snd] in H.
    rewrite map_map. rewrite map_id in H. apply H.
    apply Forall_cons in Hfit as [Hn Hns].
    constructor; [split; [constructor | exact Hn]|].
    apply Forall_map. eapply Forall_impl; [exact Hns|].
    intros m Hm. simpl. split; [|exact Hm].
    constructor; [split; reflexivity | constructor].
  - change (Py.decimal n :: map Py.decimal ns)
      with (map Py.decimal (n :: ns)).
    apply Forall_map, Forall_forall. intros m _. simpl.
    destruct (decimal_chars m) as [_ Hchars].
    eapply Forall_impl; [exact Hchars|].
    intros c Hc. by apply numchar_not_space.
Qed.

Lemma sorted_list_Permutation (l : list Z) : Py.sorted_list l ≡ₚ l.
Proof. apply merge_sort_Permutation. Qed.

(** ** How many digits a number has *)

Lemma digits_aux_length (fuel : nat) (n : Z) (acc : Py.str) (k : Z) :
  1 ≤ k → 0 ≤ n < 10 ^ k →
  Py.len (Py.digits_aux fuel n acc) ≤ Py.len acc + k.
Proof.
  revert n acc k. induction fuel as [|fuel IH]; intros n acc k Hk Hn.
  - simpl. lia.
  - cbn [Py.digits_aux]. destruct (Z.ltb_spec n 10) as [Hlt|Hge].
    + unfold Py.len. simpl length. lia.
    + assert (2 ≤ k) as Hk2.
      { destruct (decide (k = 1)) as [->|]; [|lia].
        change (10 ^ 1) with 10 in Hn. lia. }
      etrans; [apply (IH _ _ (k - 1)); [lia|]|].
      * split; [apply Z.div_pos; lia|].
        apply Z.div_lt_upper_bound; [lia|].
        rewrite <- Z.pow_succ_r by lia.
        replace (Z.succ (k - 1)) with k by lia. lia.
      * unfold Py.len. simpl length. lia.
Qed.

Lemma digits_value_lt (ds : Py.str) :
  Forall (λ c, Py.isdigit c = true) ds →
  0 ≤ decimal_value ds < 10 ^ Py.len ds.
Proof.
  unfold Py.len. induction 1 as [|c ds Hc _ IH].
  - simpl. lia.
  - cbn [decimal_value length].
    assert (0 ≤ Py.digit c ≤ 9) as Hd.
    { unfold Py.isdigit in Hc. unfold Py.digit.
      apply andb_true_iff in Hc as [?%Z.leb_le ?%Z.leb_le]. lia. }
    rewrite Nat2Z.inj_succ, Z.pow_succ_r by lia.
    pose proof (Z.pow_pos_nonneg 10 (Z.of_nat (length ds))).
    nia.
Qed.

(** A number has at most [k] digits exactly when it is below [10 ^ k]. *)
Lemma digits_fit (n k : Z) :
  0 ≤ n → 1 ≤ k →
  Py.len (Py.digits n) ≤ k ↔ n < 10 ^ k.
Proof.
  intros Hn Hk. split.
  - intros Hlen. destruct (digits_spec n Hn) as (_ & Hd & Hv).
    pose proof (digits_value_lt _ Hd) as Hlt. rewrite Hv in Hlt.
    eapply Z.lt_le_trans; [apply Hlt|].
    apply Z.pow_le_mono_r; [lia | exact Hlen].
  - intros Hlt. unfold Py.digits.
    etrans; [apply (digits_aux_length _ _ _ k); [exact Hk | lia]|].
    unfold Py.len. simpl. lia.
Qed.

Lemma printable_spec (n : Z) :
  printable n ↔ Py.len (Py.digits (Z.abs n)) ≤ Py.max_str_digits.
Proof.
  unfold printable. symmetry. apply digits_fit; [lia|].
  unfold Py.max_str_digits. lia.
Qed.

Lemma str_int_printable (n : Z) :
  (printable n → Py.str_int n = Some (Py.decimal n))
  ∧ (¬ printable n → Py.str_int n = None).
Proof.
  rewrite printable_spec. unfold Py.str_int.
  case_decide; split; intros; try reflexivity; lia.
Qed.

Lemma format_numbers_printable (numbers : list Z) :
  Forall printable numbers →
  format_numbers numbers
  = Some (Py.join (Py.lit ", ") (map Py.decimal numbers)).
Proof.
  intros Hp. unfold format_numbers.
  assert (mapM Py.str_int numbers = Some (map Py.decimal numbers)) as ->;
    [|reflexivity].
  apply mapM_Some. induction Hp as [|n ns Hn _ IH]; [constructor|].
  cbn [map]. constructor; [by apply str_int_printable | exact IH].
Qed.

Lemma format_numbers_is_Some (numbers : list Z) :
  is_Some (format_numbers numbers) ↔ Forall printable numbers.
Proof.
  split.
  - unfold format_numbers. rewrite fmap_is_Some, mapM_is_Some.
    intros Hall. eapply Forall_impl; [exact Hall|].
    intros n [t Ht]. simpl in Ht.
    destruct (Z_lt_dec (Z.abs n) (10 ^ Py.max_str_digits)) as [|Hno];
      [done|].
    apply str_int_printable in Hno. congruence.
  - intros Hp. rewrite (format_numbers_printable _ Hp). eauto.
Qed.

Lemma sample_printable (k : Z) (choice : list Z) :
  is_sample k choice → Forall printable choice.
Proof.
  intros (_ & _ & Hrange). eapply Forall_impl; [exact Hrange|].
  intros n Hn. unfold printable. simpl in Hn.
  apply Z.lt_le_trans with (10 ^ 2); [rewrite Z.abs_eq; lia|].
  apply Z.pow_le_mono_r; [lia|]. unfold Py.max_str_digits. lia.
Qed.

(** ** The generated numbers read back *)

(** Extra X1.  Formatting and parsing are inverse on numbers of at most 4300
    digits: [', '.join(str(n) for n in numbers)] is produced exactly when
    every number has at most 4300 digits ([str] raises on a longer one), and
    the text then reads back, through the parser of the two text inputs, as
    exactly those numbers in the same order. *)
Theorem format_numbers_round_trip (numbers : list Z) :
  (is_Some (format_numbers numbers)
   ↔ Forall (λ n, Z.abs n < 10 ^ 4300) numbers)
  ∧ ∀ text,
      format_numbers numbers = Some text →
      parse_numbers text = Some numbers.
Proof.
  split; [apply format_numbers_is_Some|].
  intros text Htext.
  assert (Forall printable numbers) as Hp
    by (apply format_numbers_is_Some; eauto).
  rewrite (format_numbers_printable _ Hp) in Htext.
  injection Htext as <-. apply parse_numbers_joined.
  eapply Forall_impl; [exact Hp|]. intros n. apply printable_spec.
Qed.

Lemma format_numbers_round_trip_witness :
  parse_numbers (Py.lit "42, -7, 0, 19") = Some [42; -7; 0; 19].
Proof.
  apply (proj2 (format_numbers_round_trip [42; -7; 0; 19])).
  vm_compute. reflexivity.
Defined.

Lemma generate_printable (k : Z) (choice : list Z) :
  0 ≤ k ≤ 42 →
  Forall printable choice →
  generate k choice
  = inr (Py.join (Py.lit ", ") (map Py.decimal (Py.sorted_list choice)))
  ∧ parse_numbers
      (Py.join (Py.lit ", ") (map Py.decimal (Py.sorted_list choice)))
    = Some (Py.sorted_list choice).
Proof.
  intros Hk Hp.
  assert (Forall printable (Py.sorted_list choice)) as Hps
    by (by rewrite sorted_list_Permutation).
  split.
  - unfold generate, random_sample. rewrite decide_False by lia.
    by rewrite (format_numbers_printable _ Hps).
  - apply parse_numbers_joined.
    eapply Forall_impl; [exact Hps|]. intros n. apply printable_spec.
Qed.

(** Extra X2.  Six pairwise distinct generated numbers always pass the check
    of the drawn numbers: the click stores a text, and that text is accepted
    and read as those six numbers in increasing order.  This holds for any
    six distinct numbers of at most 4300 digits, so for every sample of
    1 to 42. *)
Theorem generated_draw_accepted (choice : list Z) :
  length choice = 6%nat →
  NoDup choice →
  Forall (λ n, Z.abs n < 10 ^ 4300) choice →
  ∃ text,
    generate 6 choice = inr text
    ∧ read_draw_numbers text = inr (Py.sorted_list choice).
Proof.
  intros Hlen Hnd Hp.
  destruct (generate_printable 6 choice) as [Hgen Hparse]; [lia | exact Hp|].
  eexists. split; [exact Hgen|].
  apply read_draw_numbers_inr. split_and!.
  - exact Hparse.
  - by rewrite sorted_list_Permutation.
  - by rewrite sorted_list_Permutation.
Qed.

Lemma generated_draw_accepted_witness :
  ∃ text,
    generate 6 [42; 7; 19; 1; 33; 20] = inr text
    ∧ read_draw_numbers text = inr (Py.sorted_list [42; 7; 19; 1; 33; 20]).
Proof.
  apply (generated_draw_accepted [42; 7; 19; 1; 33; 20]).
  - reflexivity.
  - compute_done.
  - repeat constructor; vm_compute; reflexivity.
Defined.

(** Extra X3.  What the generate button for the base numbers does depends on
    the design size [k] read from the description.  Above 42 the click
    raises [ValueError], whatever the generator would choose.  Up to 42 the
    click stores a text for the [k] distinct numbers of 1 to 42 that were
    chosen; as base numbers that text is refused for holding fewer than 6
    numbers when [k < 6], and is otherwise read as the chosen numbers in
    increasing order. *)
Theorem generated_base_accepted (k : Z) (choice : list Z) :
  (42 < k → generate k choice = inl ValueError)
  ∧ (0 ≤ k ≤ 42 →
     is_sample k choice →
     ∃ text,
       generate k choice = inr text
       ∧ read_user_numbers text
         = if decide (k < 6) then inl TooFewNumbers
           else inr (Py.sorted_list choice)).
Proof.
  split.
  - intros Hk. unfold generate, random_sample.
    by rewrite decide_True by lia.
  - intros Hk Hs.
    destruct (generate_printable k choice Hk (sample_printable _ _ Hs))
      as [Hgen Hparse].
    eexists. split; [exact Hgen|].
    unfold read_user_numbers. rewrite Hparse.
    destruct Hs as (Hlen & _ & _). unfold Py.len in *.
    rewrite (Permutation_length (sorted_list_Permutation choice)), Hlen.
    reflexivity.
Qed.

Lemma generated_base_accepted_witness :
  generate 43 [] = inl ValueError
  ∧ (∃ text,
       generate 8 [42; 7; 19; 1; 33; 20; 5; 11] = inr text
       ∧ read_user_numbers text
         = inr (Py.sorted_list [42; 7; 19; 1; 33; 20; 5; 11]))
  ∧ (∃ text,
       generate 5 [42; 7; 19; 1; 33] = inr text
       ∧ read_user_numbers text = inl TooFewNumbers).
Proof.
  split; [|split].
  - apply (proj1 (generated_base_accepted 43 [])). lia.
  - apply (proj2 (generated_base_accepted 8 [42; 7; 19; 1; 33; 20; 5; 11]));
      [lia|].
    split_and!; [reflexivity | compute_done |].
    repeat constructor; vm_compute; discriminate.
  - apply (proj2 (generated_base_accepted 5 [42; 7; 19; 1; 33])); [lia|].
    split_and!; [reflexivity | compute_done |].
    repeat constructor; vm_compute; discriminate.
Defined.

(** ** Blank inputs *)

Lemma lstrip_by_Forall (P : ascii → Prop) (sp : ascii → bool) (s : Py.str) :
  Forall P s → Forall P (Py.lstrip_by sp s).
Proof.
  induction 1 as [|c s Hc Hs IH]; simpl; [constructor|].
  destruct (sp c); [exact IH | by constructor].
Qed.

Lemma strip_by_Forall (P : ascii → Prop) (sp : ascii → bool) (s : Py.str) :
  Forall P s → Forall P (Py.strip_by sp s).
Proof.
  intros Hs. unfold Py.strip_by.
  by apply List.Forall_rev, lstrip_by_Forall, List.Forall_rev,
    lstrip_by_Forall.
Qed.

Lemma strip_by_spaces (sp : ascii → bool) (s : Py.str) :
  Forall (λ c, sp c = true) s → Py.strip_by sp s = [].
Proof.
  intros Hs. unfold Py.strip_by.
  assert (Py.lstrip_by sp s = []) as ->; [|reflexivity].
  induction Hs as [|c s Hc _ IH]; simpl; [reflexivity|]. by rewrite Hc.
Qed.

Lemma split_blank (s : Py.str) :
  Forall (λ c, blank_char c = true) s →
  Forall (Forall (λ c, Py.isspace c = true)) (Py.split ","%char s).
Proof.
  induction 1 as [|c s Hc _ IH]; simpl.
  - repeat constructor.
  - destruct (Ascii.eqb c ","%char) eqn:Hcomma.
    + constructor; [constructor | exact IH].
    + unfold blank_char in Hc. rewrite Hcomma, orb_false_r in Hc.
      destruct (Py.split ","%char s) as [|w ws]; [repeat constructor; done|].
      inversion IH; subst. constructor; [by constructor | done].
Qed.

Lemma filter_spaces (pieces : list Py.str) :
  Forall (Forall (λ c, Py.isspace c = true)) pieces →
  List.filter (λ x, nonempty (Py.strip x)) pieces = [].
Proof.
  induction 1 as [|x pieces Hx _ IH]; simpl; [reflexivity|].
  unfold Py.strip at 1. by rewrite (strip_by_spaces _ _ Hx).
Qed.

Lemma parse_numbers_blank (text : Py.str) :
  Forall (λ c, blank_char c = true) text → parse_numbers text = Some [].
Proof.
  intros Htext. unfold parse_numbers.
  rewrite filter_spaces; [reflexivity|].
  apply split_blank. unfold Py.strip. by apply strip_by_Forall.
Qed.

(** Extra X4.  An input made only of white space and commas, the empty
    input included, holds no number: it is not a format error; as base
    numbers it is refused for having fewer than 6 numbers and as drawn
    numbers for not being 6 unique numbers. *)
Theorem blank_input_rejected (text : Py.str) :
  Forall (λ c, blank_char c = true) text →
  parse_numbers text = Some []
  ∧ read_user_numbers text = inl TooFewNumbers
  ∧ read_draw_numbers text = inl NotSixUnique.
Proof.
  intros Htext. pose proof (parse_numbers_blank text Htext) as Hparse.
  unfold read_user_numbers, read_draw_numbers. rewrite Hparse.
  split_and!; reflexivity.
Qed.

Lemma blank_input_rejected_witness :
  parse_numbers (Py.lit " , ,,  ") = Some []
  ∧ read_user_numbers (Py.lit " , ,,  ") = inl TooFewNumbers
  ∧ read_draw_numbers (Py.lit " , ,,  ") = inl NotSixUnique.
Proof.
  apply (blank_input_rejected (Py.lit " , ,,  ")).
  repeat constructor.
Defined.

(** ** More on the mapping and the block loop *)

Lemma mapped_of_Some (user_numbers : list Z) (v : Z) (blk mapped : list Z) :
  mapped_of user_numbers v blk = Some mapped
  ↔ all_in_range v blk = true
    ∧ map_user_numbers user_numbers blk = Some mapped
    ∧ mapped ≠ [].
Proof.
  unfold mapped_of. destruct (all_in_range v blk).
  - destruct (map_user_numbers user_numbers blk) as [[|x m]|].
    + split; [discriminate | by intros (_ & [= <-] & ?)].
    + split; [by intros [= <-] | by intros (_ & [= <-] & _)].
    + split; [discriminate | by intros (_ & ? & _)].
  - split; [discriminate | by intros (? & _)].
Qed.

Lemma mapM_ext_Forall {A B} (f g : A → option B) (l : list A) :
  Forall (λ x, f x = g x) l → mapM f l = mapM g l.
Proof.
  induction 1 as [|x l Hx _ IH]; [reflexivity|].
  cbn [mapM]. by rewrite Hx, IH.
Qed.

Lemma map_user_numbers_app (user_numbers extra blk : list Z) :
  Forall (λ p, 1 ≤ p ≤ Py.len user_numbers) blk →
  map_user_numbers (user_numbers ++ extra) blk
  = map_user_numbers user_numbers blk.
Proof.
  intros Hin. unfold map_user_numbers. apply mapM_ext_Forall.
  eapply Forall_impl; [exact Hin|]. simpl. intros p Hp.
  rewrite !index_nonneg by lia.
  apply lookup_app_l. unfold Py.len in Hp. lia.
Qed.

(** Extra X5.  Every list in [mapped_blocks] is the mapping of a stored
    block whose positions lie in [1, v]: it is not empty, has the length of
    that block, and each of its numbers is one of the base numbers. *)
Theorem mapped_blocks_sound (user_numbers : list Z) (blocks : list (list Z)) :
  let v := Py.len user_numbers in
  Forall (λ mapped : list Z,
            mapped ≠ []
            ∧ (∀ x, x ∈ mapped → x ∈ user_numbers)
            ∧ ∃ blk, blk ∈ blocks
                ∧ Forall (λ p, 1 ≤ p ≤ v) blk
                ∧ length mapped = length blk
                ∧ map_user_numbers user_numbers blk = Some mapped)
         (mapped_blocks (classify user_numbers v blocks)).
Proof.
  intros v. rewrite classify_closed. simpl.
  apply Forall_forall. intros mapped Hm.
  apply list_elem_of_omap in Hm as (blk & Hblk & Hmo).
  apply mapped_of_Some in Hmo as (Hin & Hmap & Hne).
  apply all_in_range_Forall in Hin.
  destruct (map_user_numbers_in_range user_numbers blk Hin)
    as (mapped' & Hmap' & Hf).
  assert (mapped' = mapped) as -> by congruence.
  split_and!; [exact Hne | |].
  - intros x Hx. apply list_elem_of_lookup in Hx as [i Hi].
    destruct (Forall2_lookup_r _ _ _ _ _ Hf Hi) as (p & _ & Hp).
    apply list_elem_of_lookup. eauto.
  - exists blk. split_and!; try done. symmetry. by eapply Forall2_length.
Qed.

(** Extra X6.  When the base numbers are pairwise distinct, a block of
    pairwise distinct positions in [1, v] maps to pairwise distinct
    numbers. *)
Theorem distinct_positions_distinct_numbers (user_numbers block : list Z) :
  NoDup user_numbers →
  NoDup block →
  Forall (λ p, 1 ≤ p ≤ Py.len user_numbers) block →
  ∃ mapped,
    map_user_numbers user_numbers block = Some mapped ∧ NoDup mapped.
Proof.
  intros Hbase Hblk Hin.
  destruct (map_user_numbers_in_range user_numbers block Hin)
    as (mapped & Hmap & Hf).
  exists mapped. split; [exact Hmap|].
  clear Hmap. induction Hf as [|p x block mapped Hpx Hf IH].
  - constructor.
  - apply NoDup_cons in Hblk as [Hp Hblk].
    apply Forall_cons in Hin as [Hpr Hin].
    constructor; [|by apply IH].
    intros Hx. apply list_elem_of_lookup in Hx as [i Hi].
    destruct (Forall2_lookup_r _ _ _ _ _ Hf Hi) as (q & Hq & Hqx).
    assert (1 ≤ q ≤ Py.len user_numbers) as Hqr.
    { rewrite Forall_forall in Hin. apply Hin.
      apply list_elem_of_lookup. eauto. }
    pose proof (NoDup_lookup _ _ _ _ Hbase Hpx Hqx) as Heq.
    assert (p = q) as -> by lia.
    apply Hp, list_elem_of_lookup. eauto.
Qed.

Lemma distinct_positions_distinct_numbers_witness :
  ∃ mapped,
    map_user_numbers [10; 20; 30; 40; 50; 60; 70] [7; 1; 3; 2; 6; 4]
    = Some mapped
    ∧ NoDup mapped.
Proof.
  apply (distinct_positions_distinct_numbers
           [10; 20; 30; 40; 50; 60; 70] [7; 1; 3; 2; 6; 4]).
  - compute_done.
  - compute_done.
  - repeat constructor; vm_compute; discriminate.
Defined.

(** Extra X7.  The block that lists the positions 1 to [v] in order maps to
    the base numbers themselves. *)
Theorem identity_block (user_numbers : list Z) :
  map_user_numbers user_numbers (seqZ 1 (Py.len user_numbers))
  = Some user_numbers.
Proof.
  unfold map_user_numbers. apply mapM_Some.
  apply Forall2_same_length_lookup. split.
  - rewrite length_seqZ. unfold Py.len. lia.
  - intros i p x Hp Hx. apply lookup_seqZ in Hp as [-> Hi].
    rewrite index_nonneg by lia.
    replace (Z.to_nat (1 + Z.of_nat i - 1)) with i by lia. exact Hx.
Qed.

(** Extra X8.  An empty block is dropped without a trace: it passes the range
    test, its mapping is the empty list, which counts as false, so it
    reaches neither list and the result is as if it were not stored.  In
    general the mapped, the invalid and the empty blocks add up to the
    stored blocks. *)
Theorem empty_block_dropped (user_numbers : list Z)
    (blocks : list (list Z)) :
  let v := Py.len user_numbers in
  let c := classify user_numbers v blocks in
  (length (mapped_blocks c) + length (invalid_blocks c)
   + length (List.filter (λ blk : list Z, bool_decide (blk = [])) blocks))%nat
  = length blocks
  ∧ ∀ pre post,
      classify user_numbers v (pre ++ [] :: post)
      = classify user_numbers v (pre ++ post).
Proof.
  intros v c. subst c. split.
  - rewrite classify_closed. simpl.
    induction blocks as [|blk blocks IH]; [reflexivity|].
    cbn [omap list_omap List.filter length].
    destruct (all_in_range v blk) eqn:Hin.
    + destruct blk as [|p blk].
      * simpl. rewrite Nat.add_succ_r. f_equal. exact IH.
      * assert (p :: blk ≠ []) as Hne by done.
        destruct (mapped_of_in_range user_numbers (p :: blk) Hne Hin)
          as (mapped & _ & Hmo).
        fold v in Hmo. rewrite Hmo. simpl. f_equal. exact IH.
    + rewrite (mapped_of_out_of_range _ _ _ Hin).
      destruct blk as [|p blk]; [discriminate|].
      simpl. rewrite Nat.add_succ_r, Nat.add_succ_l. f_equal. exact IH.
  - intros pre post. rewrite !classify_closed.
    by rewrite !omap_app, !List.filter_app.
Qed.

Lemma mapped_of_more_numbers (user_numbers extra blk mapped : list Z) :
  mapped_of user_numbers (Py.len user_numbers) blk = Some mapped →
  mapped_of (user_numbers ++ extra) (Py.len (user_numbers ++ extra)) blk
  = Some mapped.
Proof.
  rewrite !mapped_of_Some. intros (Hin & Hmap & Hne).
  apply all_in_range_Forall in Hin.
  split_and!; [| |exact Hne].
  - apply all_in_range_Forall. eapply Forall_impl; [exact Hin|].
    simpl. unfold Py.len. rewrite length_app. lia.
  - by rewrite map_user_numbers_app.
Qed.

(** Extra X9.  Entering further base numbers after the ones already given
    never loses a mapped block nor changes its numbers: the old
    [mapped_blocks] is a sub-list of the new one, and the new
    [invalid_blocks] is a sub-list of the old one. *)
Theorem more_base_numbers_keep_blocks (user_numbers extra : list Z)
    (blocks : list (list Z)) :
  let c := classify user_numbers (Py.len user_numbers) blocks in
  let c' := classify (user_numbers ++ extra)
              (Py.len (user_numbers ++ extra)) blocks in
  mapped_blocks c `sublist_of` mapped_blocks c'
  ∧ invalid_blocks c' `sublist_of` invalid_blocks c.
Proof.
  intros c c'. subst c c'. rewrite !classify_closed. simpl. split.
  - induction blocks as [|blk blocks IH]; [constructor|].
    cbn [omap list_omap].
    destruct (mapped_of user_numbers (Py.len user_numbers) blk)
      as [mapped|] eqn:Hmo.
    + rewrite (mapped_of_more_numbers _ extra _ _ Hmo).
      by apply sublist_skip.
    + destruct (mapped_of (user_numbers ++ extra) _ blk);
        [by apply sublist_cons | exact IH].
  - induction blocks as [|blk blocks IH]; [constructor|].
    cbn [List.filter].
    destruct (all_in_range (Py.len user_numbers) blk) eqn:Hin; simpl.
    + assert (all_in_range (Py.len (user_numbers ++ extra)) blk = true)
        as ->; [|exact IH].
      apply all_in_range_Forall. apply all_in_range_Forall in Hin.
      eapply Forall_impl; [exact Hin|].
      simpl. unfold Py.len. rewrite length_app. lia.
    + destruct (all_in_range (Py.len (user_numbers ++ extra)) blk); simpl;
        [by apply sublist_cons | by apply sublist_skip].
Qed.

(** ** More on the match loop *)

Lemma get_insert (d : gmap Z Z) (c v k : Z) :
  Py.get (<[c := v]> d) k 0 = if decide (c = k) then v else Py.get d k 0.
Proof.
  unfold Py.get. rewrite lookup_insert. by case_decide.
Qed.

Lemma enumerate_snd {A} (start : Z) (l : list A) :
  (Py.enumerate start l).*2 = l.
Proof.
  revert start. induction l as [|x l IH]; intros start; simpl;
    [reflexivity | by rewrite IH].
Qed.

Lemma enumerate_elem_of {A} (start i : Z) (x : A) (l : list A) :
  (i, x) ∈ Py.enumerate start l
  ↔ ∃ n : nat, i = start + Z.of_nat n ∧ l !! n = Some x.
Proof.
  revert start. induction l as [|y l IH]; intros start; simpl.
  - split; [by intros ?%elem_of_nil | by intros (n & _ & ?)].
  - rewrite elem_of_cons, IH. split.
    + intros [[= -> ->]|(n & -> & Hn)].
      * exists 0%nat. split; [lia | reflexivity].
      * exists (S n). split; [lia | exact Hn].
    + intros ([|n] & -> & Hn).
      * left. simpl in Hn. injection Hn as ->. f_equal. lia.
      * right. exists n. split; [lia | exact Hn].
Qed.

Lemma count_cons {A} (P : A → Prop) `{!∀ x, Decision (P x)}
    (x : A) (l : list A) :
  Py.len (filter P (x :: l))
  = (if decide (P x) then 1 else 0) + Py.len (filter P l).
Proof.
  rewrite filter_cons. unfold Py.len.
  case_decide; simpl length; lia.
Qed.

Lemma count_pos {A} (P : A → Prop) `{!∀ x, Decision (P x)} (l : list A) :
  0 < Py.len (filter P l) ↔ Exists P l.
Proof.
  induction l as [|x l IH].
  - split; [unfold Py.len; simpl; lia | by intros ?%Exists_nil].
  - rewrite count_cons, Exists_cons.
    assert (0 ≤ Py.len (filter P l)) by (unfold Py.len; lia).
    case_decide; [split; [auto | lia]|].
    rewrite Z.add_0_l, IH. tauto.
Qed.

Lemma score_foldl_get (min_hits : Z) (draw_numbers : list Z)
    (l : list (Z * list Z)) (st : scored) (k : Z) :
  Py.get (match_counter (foldl (score_step min_hits draw_numbers) st l)) k 0
  = Py.get (match_counter st) k 0
    + Py.len (filter (λ b, hit_count draw_numbers b = k) (l.*2)).
Proof.
  revert st. induction l as [|ib l IH]; intros st.
  - simpl. unfold Py.len. simpl. lia.
  - cbn [foldl fmap list_fmap]. rewrite IH, count_cons.
    unfold score_step. cbn [match_counter]. rewrite get_insert.
    unfold hit_count. repeat case_decide; subst; try lia; done.
Qed.

Lemma score_get (min_hits : Z) (draw_numbers : list Z)
    (mapped : list (list Z)) (k : Z) :
  Py.get (match_counter (score min_hits draw_numbers mapped)) k 0
  = Py.len (filter (λ b, hit_count draw_numbers b = k) mapped).
Proof.
  unfold score. rewrite score_foldl_get, enumerate_snd.
  cbn [match_counter]. unfold Py.get. rewrite lookup_empty. simpl. lia.
Qed.

Lemma hit_count_bounds (draw_numbers block : list Z) :
  0 ≤ hit_count draw_numbers block ≤ Py.len draw_numbers.
Proof.
  unfold hit_count, hits_of, Py.len. rewrite sorted_length.
  split; [lia|]. apply inj_le.
  etrans; [|apply (size_set_le draw_numbers)].
  apply subseteq_size, intersection_subseteq_r.
Qed.

(** Extra X10.  The histogram counts blocks by hit count: the count stored
    for [k] hits, 0 when [k] is not a key, is the number of mapped blocks
    with exactly [k] hits, and [k] is a key exactly when some mapped block
    has [k] hits. *)
Theorem histogram_counts_blocks (min_hits : Z) (draw_numbers : list Z)
    (mapped : list (list Z)) (k : Z) :
  let counter := match_counter (score min_hits draw_numbers mapped) in
  Py.get counter k 0
  = Py.len (filter (λ b, hit_count draw_numbers b = k) mapped)
  ∧ (is_Some (counter !! k)
     ↔ Exists (λ b, hit_count draw_numbers b = k) mapped).
Proof.
  intros counter. subst counter. split; [apply score_get|].
  rewrite <- count_pos, <- (score_get min_hits).
  pose proof (score_foldl_positive min_hits draw_numbers
                (Py.enumerate 1 mapped) (Scored [] ∅)
                (map_Forall_empty _)) as Hpos.
  fold (score min_hits draw_numbers mapped) in Hpos.
  unfold Py.get.
  destruct (match_counter (score min_hits draw_numbers mapped) !! k)
    as [c|] eqn:Hc; simpl.
  - specialize (Hpos k c Hc). simpl in Hpos. split; [lia | eauto].
  - split; [by intros [? ?] | lia].
Qed.

(** Extra X11.  With 6 drawn numbers the keys of the histogram lie between
    0 and 6 and every stored count is at least 1. *)
Theorem histogram_keys_in_range (min_hits : Z) (draw_numbers : list Z)
    (mapped : list (list Z)) (k c : Z) :
  length draw_numbers = 6%nat →
  match_counter (score min_hits draw_numbers mapped) !! k = Some c →
  0 ≤ k ≤ 6 ∧ 1 ≤ c.
Proof.
  intros Hlen Hc. split.
  - assert (Exists (λ b, hit_count draw_numbers b = k) mapped) as Hex.
    { rewrite <- count_pos, <- (score_get min_hits).
      unfold Py.get. rewrite Hc. simpl.
      pose proof (score_foldl_positive min_hits draw_numbers
                    (Py.enumerate 1 mapped) (Scored [] ∅)
                    (map_Forall_empty _) k c Hc) as Hpos.
      simpl in Hpos. lia. }
    apply Exists_exists in Hex as (b & _ & <-).
    pose proof (hit_count_bounds draw_numbers b) as Hb.
    unfold Py.len in Hb. lia.
  - exact (score_foldl_positive min_hits draw_numbers
             (Py.enumerate 1 mapped) (Scored [] ∅)
             (map_Forall_empty _) k c Hc).
Qed.

Lemma histogram_keys_in_range_witness :
  0 ≤ 3 ≤ 6 ∧ 1 ≤ 1.
Proof.
  apply (histogram_keys_in_range 1 [1; 2; 3; 4; 5; 6]
           [[1; 2; 3; 4; 5; 6]; [1; 2; 3; 7; 8; 9]] 3 1).
  - reflexivity.
  - vm_compute. reflexivity.
Defined.

(** Extra X12.  The displayed match list is sound and complete: it holds the
    entry [(i, block, hits)] exactly when [block] is the [i]-th mapped block,
    counting from 1, [hits] is its hit list and the hit count reaches the
    threshold. *)
Theorem hit_blocks_entries (min_hits : Z) (draw_numbers : list Z)
    (mapped : list (list Z)) (i : Z) (block hits : list Z) :
  (i, block, hits) ∈ hit_blocks (score min_hits draw_numbers mapped)
  ↔ 1 ≤ i
    ∧ mapped !! Z.to_nat (i - 1) = Some block
    ∧ hits = hits_of block draw_numbers
    ∧ min_hits ≤ Py.len hits.
Proof.
  unfold score. rewrite score_foldl_hit_blocks. cbn [hit_blocks app].
  rewrite list_elem_of_filter, list_elem_of_fmap. cbn [snd]. split.
  - intros (Hmin & [j b] & [= -> -> ->] & Hin). cbn [fst snd] in *.
    apply enumerate_elem_of in Hin as (n & -> & Hn).
    split_and!; [lia | | reflexivity | exact Hmin].
    by replace (Z.to_nat (1 + Z.of_nat n - 1)) with n by lia.
  - intros (Hi & Hlook & -> & Hmin). split; [exact Hmin|].
    exists (i, block). split; [reflexivity|].
    apply enumerate_elem_of. exists (Z.to_nat (i - 1)).
    split; [lia | exact Hlook].
Qed.

Lemma hits_of_draw_perm (block d1 d2 : list Z) :
  d1 ≡ₚ d2 → hits_of block d1 = hits_of block d2.
Proof.
  intros Hp. unfold hits_of, Py.set.
  by rewrite (list_to_set_perm_L (C:=gset Z) d1 d2 Hp).
Qed.

(** Extra X13.  The order in which the drawn numbers are typed does not
    matter: two draws that are rearrangements of each other give the same
    match list and the same histogram. *)
Theorem draw_order_irrelevant (min_hits : Z) (d1 d2 : list Z)
    (mapped : list (list Z)) :
  d1 ≡ₚ d2 →
  score min_hits d1 mapped = score min_hits d2 mapped.
Proof.
  intros Hp. unfold score.
  generalize (Scored [] ∅). generalize (Py.enumerate 1 mapped).
  intros l. induction l as [|ib l IH]; intros st; [reflexivity|].
  cbn [foldl]. rewrite IH. f_equal.
  unfold score_step. by rewrite (hits_of_draw_perm ib.2 d1 d2 Hp).
Qed.

Lemma draw_order_irrelevant_witness :
  score 1 [6; 5; 4; 3; 2; 1] [[1; 2; 3; 7; 8; 9]]
  = score 1 [1; 2; 3; 4; 5; 6] [[1; 2; 3; 7; 8; 9]].
Proof.
  apply (draw_order_irrelevant 1 [6; 5; 4; 3; 2; 1] [1; 2; 3; 4; 5; 6]).
  exact (reverse_Permutation [1; 2; 3; 4; 5; 6]).
Defined.

(** ** More on the prize summary *)

Lemma payout_cases (jackpot k : Z) :
  payout jackpot k
  = (if decide (k = 5) then 24000 else 0)
    + (if decide (k = 4) then 800 else 0)
    + (if decide (k = 3) then 20 else 0)
    + (if decide (k = 6) then 1 else 0) * jackpot.
Proof.
  unfold payout, prize_table. simpl.
  repeat case_decide; subst; try lia; try done.
Qed.

Lemma tally_payouts (draw_numbers : list Z) (mapped : list (list Z))
    (jackpot : Z) :
  Py.len (filter (λ b, hit_count draw_numbers b = 5) mapped) * 24000
  + Py.len (filter (λ b, hit_count draw_numbers b = 4) mapped) * 800
  + Py.len (filter (λ b, hit_count draw_numbers b = 3) mapped) * 20
  + Py.len (filter (λ b, hit_count draw_numbers b = 6) mapped) * jackpot
  = foldr (λ b acc, payout jackpot (hit_count draw_numbers b) + acc) 0
          mapped.
Proof.
  induction mapped as [|b mapped IH]; [reflexivity|].
  cbn [foldr]. rewrite <- IH, !count_cons, payout_cases.
  repeat case_decide; lia.
Qed.

(** Extra X14.  The grand total is the sum, over the mapped blocks, of what
    each block wins on its own: the jackpot amount for 6 hits, 24000 for 5,
    800 for 4, 20 for 3 and nothing below; the net profit is that sum minus
    20 per mapped block. *)
Theorem grand_total_per_block (min_hits : Z) (draw_numbers : list Z)
    (mapped : list (list Z)) (jackpot : Z) :
  let s := prize_summary
             (match_counter (score min_hits draw_numbers mapped))
             jackpot mapped in
  grand_total s
  = foldr (λ b acc, payout jackpot (hit_count draw_numbers b) + acc) 0
          mapped
  ∧ net_profit s
    = foldr (λ b acc, payout jackpot (hit_count draw_numbers b) - 20 + acc)
            0 mapped.
Proof.
  intros s. subst s.
  assert (grand_total
            (prize_summary
               (match_counter (score min_hits draw_numbers mapped))
               jackpot mapped)
          = foldr (λ b acc, payout jackpot (hit_count draw_numbers b) + acc)
                  0 mapped) as Hgrand.
  { unfold prize_summary.
    destruct (prize_calc_fields
                (match_counter (score min_hits draw_numbers mapped))
                jackpot (Py.len mapped)) as (Hf & Hj & Hg & _).
    rewrite Hg, Hf, Hj, !score_get. apply tally_payouts. }
  split; [exact Hgrand|].
  change (net_profit ?s) with (grand_total s - total_cost s).
  rewrite Hgrand. unfold prize_summary.
  destruct (prize_calc_fields
              (match_counter (score min_hits draw_numbers mapped))
              jackpot (Py.len mapped)) as (_ & _ & _ & Hc).
  rewrite Hc. clear. induction mapped as [|b mapped IH]; [reflexivity|].
  cbn [foldr]. rewrite <- IH. unfold Py.len. cbn [length]. lia.
Qed.

Lemma count_zero {A} (P : A → Prop) `{!∀ x, Decision (P x)} (l : list A) :
  Py.len (filter P l) = 0 ↔ Forall (λ x, ¬ P x) l.
Proof.
  induction l as [|x l IH].
  - split; [constructor | reflexivity].
  - rewrite count_cons, Forall_cons, <- IH.
    assert (0 ≤ Py.len (filter P l)) by (unfold Py.len; lia).
    case_decide; [split; [lia | tauto] | split; [by split; [|lia] | lia]].
Qed.

(** Extra X15.  Which toast is shown depends only on the best block, not on
    the jackpot amount (6 drawn numbers given): the jackpot toast exactly
    when some mapped block has 6 hits; the win toast exactly when none has 6
    and some block has 3, 4 or 5; the no-hits toast exactly when every
    mapped block has fewer than 3 hits. *)
Theorem toast_by_best_block (min_hits : Z) (draw_numbers : list Z)
    (mapped : list (list Z)) (jackpot : Z) :
  length draw_numbers = 6%nat →
  let s := prize_summary
             (match_counter (score min_hits draw_numbers mapped))
             jackpot mapped in
  (toast_of s = JackpotToast
   ↔ Exists (λ b, hit_count draw_numbers b = 6) mapped)
  ∧ (toast_of s = WinToast
     ↔ Forall (λ b, hit_count draw_numbers b ≠ 6) mapped
       ∧ Exists (λ b, 3 ≤ hit_count draw_numbers b ≤ 5) mapped)
  ∧ (toast_of s = NoHitsToast
     ↔ Forall (λ b, hit_count draw_numbers b < 3) mapped).
Proof.
  intros Hlen s. subst s. unfold toast_of, prize_summary.
  destruct (prize_calc_fields
              (match_counter (score min_hits draw_numbers mapped))
              jackpot (Py.len mapped)) as (Hf & Hj & Hg & _).
  rewrite Hg, Hf, Hj.
  change (six_hit_count (prize_calc ?c _ _)) with (Py.get c 6 0).
  rewrite !score_get.
  set (c3 := Py.len (filter (λ b, hit_count draw_numbers b = 3) mapped)).
  set (c4 := Py.len (filter (λ b, hit_count draw_numbers b = 4) mapped)).
  set (c5 := Py.len (filter (λ b, hit_count draw_numbers b = 5) mapped)).
  set (c6 := Py.len (filter (λ b, hit_count draw_numbers b = 6) mapped)).
  assert (0 ≤ c3 ∧ 0 ≤ c4 ∧ 0 ≤ c5 ∧ 0 ≤ c6) as (H3 & H4 & H5 & H6)
    by (unfold c3, c4, c5, c6, Py.len; lia).
  assert (Exists (λ b, hit_count draw_numbers b = 6) mapped ↔ 0 < c6)
    as Hex6 by (symmetry; apply count_pos).
  assert (Forall (λ b, hit_count draw_numbers b ≠ 6) mapped ↔ c6 = 0)
    as Hall6 by (symmetry; apply count_zero).
  assert (Exists (λ b, 3 ≤ hit_count draw_numbers b ≤ 5) mapped
          ↔ 0 < c3 ∨ 0 < c4 ∨ 0 < c5) as Hex.
  { unfold c3, c4, c5. rewrite !count_pos, !Exists_exists. split.
    - intros (b & Hb & Hr).
      assert (hit_count draw_numbers b = 3 ∨ hit_count draw_numbers b = 4
              ∨ hit_count draw_numbers b = 5) as [?|[?|?]] by lia; eauto 6.
    - intros [(b & ? & ?)|[(b & ? & ?)|(b & ? & ?)]];
        exists b; (split; [done | lia]). }
  assert (Forall (λ b, hit_count draw_numbers b < 3) mapped
          ↔ c3 = 0 ∧ c4 = 0 ∧ c5 = 0 ∧ c6 = 0) as Hlow.
  { unfold c3, c4, c5, c6. rewrite !count_zero, !Forall_forall. split.
    - intros Hall. split_and!; intros b Hb; specialize (Hall b Hb); lia.
    - intros (A3 & A4 & A5 & A6) b Hb.
      specialize (A3 b Hb). specialize (A4 b Hb).
      specialize (A5 b Hb). specialize (A6 b Hb).
      pose proof (hit_count_bounds draw_numbers b) as Hb6.
      unfold Py.len in Hb6. lia. }
  rewrite Hex6, Hall6, Hex, Hlow.
  destruct (decide (0 < c6)) as [Hpos|Hzero].
  - split_and!; split; try discriminate; try reflexivity; lia.
  - assert (c6 = 0) as -> by lia. rewrite Z.mul_0_l, Z.add_0_r.
    case_decide; split_and!; split; try discriminate; try reflexivity; lia.
Qed.

Lemma toast_by_best_block_witness :
  let s := prize_summary
             (match_counter (score 1 [1; 2; 3; 4; 5; 6]
                               [[1; 2; 3; 7; 8; 9]; [1; 2; 7; 8; 9; 10]]))
             (-1000000) [[1; 2; 3; 7; 8; 9]; [1; 2; 7; 8; 9; 10]] in
  (toast_of s = JackpotToast
   ↔ Exists (λ b, hit_count [1; 2; 3; 4; 5; 6] b = 6)
       [[1; 2; 3; 7; 8; 9]; [1; 2; 7; 8; 9; 10]])
  ∧ (toast_of s = WinToast
     ↔ Forall (λ b, hit_count [1; 2; 3; 4; 5; 6] b ≠ 6)
         [[1; 2; 3; 7; 8; 9]; [1; 2; 7; 8; 9; 10]]
       ∧ Exists (λ b, 3 ≤ hit_count [1; 2; 3; 4; 5; 6] b ≤ 5)
           [[1; 2; 3; 7; 8; 9]; [1; 2; 7; 8; 9; 10]])
  ∧ (toast_of s = NoHitsToast
     ↔ Forall (λ b, hit_count [1; 2; 3; 4; 5; 6] b < 3)
         [[1; 2; 3; 7; 8; 9]; [1; 2; 7; 8; 9; 10]]).
Proof.
  apply (toast_by_best_block 1 [1; 2; 3; 4; 5; 6]
           [[1; 2; 3; 7; 8; 9]; [1; 2; 7; 8; 9; 10]] (-1000000)).
  reflexivity.
Defined.

(** Extra X16.  The itemised prize lines agree with the total: there is one
    line per tier with a non-zero count, tiers in the order 5, 4, 3, each
    line shows the stored count, the prize of the tier and their product,
    and the amounts of the lines add up to [total_fixed]. *)
Theorem tier_lines_total (counter : gmap Z Z) (jackpot blocks_count : Z) :
  foldr (λ line acc, line.2 + acc) 0 (tier_lines counter)
  = total_fixed (prize_calc counter jackpot blocks_count)
  ∧ (tier_lines counter).*1.*1.*2 `sublist_of` [5; 4; 3]
  ∧ Forall (λ line : Z * Z * Z * Z,
              line.1.1.1 ≠ 0
              ∧ line.1.1.1 = Py.get counter line.1.1.2 0
              ∧ line.1.2 = tier_prize_in prize_table line.1.1.2
              ∧ line.2 = line.1.1.1 * line.1.2)
           (tier_lines counter).
Proof.
  destruct (prize_calc_fields counter jackpot blocks_count) as (Hf & _).
  rewrite Hf. unfold tier_lines.
  change (merge_sort key_ge prize_table)
    with [(5, 24000); (4, 800); (3, 20)].
  cbn [omap list_omap fst snd].
  destruct (decide (Py.get counter 5 0 = 0)) as [E5|N5];
    destruct (decide (Py.get counter 4 0 = 0)) as [E4|N4];
    destruct (decide (Py.get counter 3 0 = 0)) as [E3|N3];
    cbn [foldr fmap list_fmap fst snd];
    (split_and!;
     [ rewrite ?E5, ?E4, ?E3; lia
     | repeat first [ apply sublist_nil | apply sublist_skip
                    | apply sublist_cons ]
     | repeat constructor; done ]).
Qed.

Lemma filter_all_length {A} (P : A → Prop) `{!∀ x, Decision (P x)}
    (l : list A) :
  length (filter P l) = length l ↔ Forall P l.
Proof.
  induction l as [|x l IH].
  - split; [constructor | reflexivity].
  - rewrite filter_cons, Forall_cons, <- IH.
    pose proof (length_filter P l).
    case_decide; simpl; [split; [by intros [= ?] | by intros [_ ->]]|].
    split; [lia | tauto].
Qed.

(** Extra X17.  With 6 pairwise distinct drawn numbers a block scores 6
    hits exactly when it contains every drawn number, so [six_hit_count],
    the count the jackpot is paid for, is the number of mapped blocks that
    contain the whole draw. *)
Theorem six_hits_whole_draw (min_hits : Z) (draw_numbers : list Z)
    (mapped : list (list Z)) (jackpot : Z) :
  length draw_numbers = 6%nat →
  NoDup draw_numbers →
  (∀ b, hit_count draw_numbers b = 6 ↔ draw_numbers ⊆ b)
  ∧ six_hit_count
      (prize_summary (match_counter (score min_hits draw_numbers mapped))
                     jackpot mapped)
    = Py.len (filter (λ b, draw_numbers ⊆ b) mapped).
Proof.
  intros Hlen Hnd.
  assert (∀ b, hit_count draw_numbers b = 6 ↔ draw_numbers ⊆ b) as Hsix.
  { intros b. unfold hit_count, Py.len.
    rewrite hits_of_count_drawn by exact Hnd.
    replace 6 with (Z.of_nat (length draw_numbers)) by lia.
    rewrite Nat2Z.inj_iff, filter_all_length, Forall_forall.
    reflexivity. }
  split; [exact Hsix|].
  change (six_hit_count (prize_summary ?c _ _)) with (Py.get c 6 0).
  rewrite score_get. f_equal. f_equal.
  apply list_filter_iff. exact Hsix.
Qed.

Lemma six_hits_whole_draw_witness :
  (∀ b, hit_count [1; 2; 3; 4; 5; 6] b = 6 ↔ [1; 2; 3; 4; 5; 6] ⊆ b)
  ∧ six_hit_count
      (prize_summary
         (match_counter (score 1 [1; 2; 3; 4; 5; 6]
                           [[6; 5; 4; 3; 2; 1]; [1; 2; 3; 7; 8; 9]]))
         30000000 [[6; 5; 4; 3; 2; 1]; [1; 2; 3; 7; 8; 9]])
    = Py.len (filter (λ b, [1; 2; 3; 4; 5; 6] ⊆ b)
                [[6; 5; 4; 3; 2; 1]; [1; 2; 3; 7; 8; 9]]).
Proof.
  apply (six_hits_whole_draw 1 [1; 2; 3; 4; 5; 6]
           [[6; 5; 4; 3; 2; 1]; [1; 2; 3; 7; 8; 9]] 30000000).
  - reflexivity.
  - compute_done.
Defined.

(** ** The run as a whole *)

Lemma get_v_from_description_inr (description : Py.str) (v : Z) :
  get_v_from_description description = inr v
  ↔ ∃ ds rest,
      description = ds ++ rest
      ∧ ds ≠ []
      ∧ Forall (λ c, Py.isdigit c = true) ds
      ∧ no_leading_digit rest
      ∧ Py.len ds ≤ 4300
      ∧ v = decimal_value ds.
Proof.
  rewrite get_v_from_description_run. split.
  - intros Hv. destruct (digit_run_split description) as (rest & Hs & Hd & Hr).
    exists (digit_run description), rest.
    destruct (digit_run description) as [|c g]; [discriminate|].
    unfold Py.max_str_digits in Hv. case_decide; [discriminate|].
    injection Hv as <-. split_and!; try done. lia.
  - intros (ds & rest & -> & Hne & Hd & Hr & Hlen & ->).
    rewrite digit_run_app by done. destruct ds; [done|].
    unfold Py.max_str_digits. case_decide; [lia | reflexivity].
Qed.

Lemma read_user_numbers_inr (user_input : Py.str) (us : list Z) :
  read_user_numbers user_input = inr us
  ↔ parse_numbers user_input = Some us ∧ (6 ≤ length us)%nat.
Proof.
  unfold read_user_numbers, Py.len.
  destruct (parse_numbers user_input) as [us'|].
  - case_decide.
    + split; [discriminate | intros [[= ->] ?]; lia].
    + split; [intros [= ->]; split; [reflexivity | lia] | by intros [[= ->] _]].
  - split; [discriminate | by intros [? _]].
Qed.

(** Extra X18.  A run in which no generate button is clicked reaches the
    prize summary exactly when all four checks pass: the store lists a
    design; the selected description starts with a run of 1 to 4300 decimal
    digits, whose value becomes [v_design]; the base input parses to at
    least 6 integers; and the drawn input parses to exactly 6 pairwise
    distinct integers.  The report is then computed from those parsed
    numbers; the number of base numbers is not compared with [v_design]. *)
Theorem run_completes_iff (p : page) (r : report) :
  run p = inr r
  ↔ designs p ≠ []
    ∧ (∃ ds rest,
         selected p = ds ++ rest
         ∧ ds ≠ []
         ∧ Forall (λ c, Py.isdigit c = true) ds
         ∧ no_leading_digit rest
         ∧ Py.len ds ≤ 4300
         ∧ v_design r = decimal_value ds)
    ∧ (parse_numbers (user_input p) = Some (user_numbers r)
       ∧ (6 ≤ length (user_numbers r))%nat)
    ∧ (parse_numbers (draw_input p) = Some (draw_numbers r)
       ∧ length (draw_numbers r) = 6%nat
       ∧ NoDup (draw_numbers r))
    ∧ block_result r
      = classify (user_numbers r) (Py.len (user_numbers r)) (blocks p)
    ∧ match_result r
      = score (min_hits p) (draw_numbers r)
              (mapped_blocks (block_result r))
    ∧ prizes r
      = prize_summary (match_counter (match_result r)) (jackpot_amount p)
                      (mapped_blocks (block_result r)).
Proof.
  rewrite <- read_user_numbers_inr, <- read_draw_numbers_inr,
    <- get_v_from_description_inr.
  unfold run, nonempty_designs. destruct (designs p) as [|d ds].
  - split; [discriminate | by intros [? _]].
  - destruct (get_v_from_description (selected p)) as [e|vd]; simpl.
    { split; [discriminate | by intros (_ & ? & _)]. }
    destruct (read_user_numbers (user_input p)) as [e|us]; simpl.
    { split; [discriminate | by intros (_ & _ & ? & _)]. }
    destruct (read_draw_numbers (draw_input p)) as [e|dn]; simpl.
    { split; [discriminate | by intros (_ & _ & _ & ? & _)]. }
    split.
    + intros [= <-]. simpl. split_and!; done.
    + destruct r as [vd' us' dn' c' s' z']. simpl.
      intros (_ & [= <-] & [= <-] & [= <-] & -> & -> & ->). reflexivity.
Qed.
